(** * MerryTree: particle engine and gesture state machine

    A shallow embedding of [ChristmasParticles] (the per-frame particle
    update and the particle initialisation) and of [GestureController]
    (the [predictWebcam] frame handler), with the properties of the
    specification stated against them.

    JavaScript numbers are modelled as real numbers ([R]); the
    millisecond timestamps returned by [Date.now()] are integers ([Z]). *)

From Stdlib Require Import Reals ZArith List Bool Lra Lia Psatz.
From Stdlib Require String.
Import ListNotations.

Local Open Scope R_scope.

(** ** THREE.Vector3 *)

Module Three.

Record Vector3 : Type := mkVector3 { x : R; y : R; z : R }.

(** [this.x += (v.x - this.x) * alpha] on each axis. *)
Definition lerp (this v : Vector3) (alpha : R) : Vector3 :=
  mkVector3 (x this + (x v - x this) * alpha)
            (y this + (y v - y this) * alpha)
            (z this + (z v - z this) * alpha).

Definition distanceToSquared (this v : Vector3) : R :=
  let dx := x this - x v in
  let dy := y this - y v in
  let dz := z this - z v in
  dx * dx + dy * dy + dz * dz.

Definition distanceTo (this v : Vector3) : R :=
  sqrt (distanceToSquared this v).

Definition clone (this : Vector3) : Vector3 := this.

(** [c] lies on the segment from [a] to [b], and [p] in the box spanned
    by [a] and [v] (used to say that a step does not go past its target). *)
Definition between (a b c : R) : Prop := a <= c <= b \/ b <= c <= a.

Definition within (a v p : Vector3) : Prop :=
  between (x a) (x v) (x p) /\ between (y a) (y v) (y p)
  /\ between (z a) (z v) (z p).

End Three.

Import Three.

(** ** Application state *)

(** Modelled from the spec: the enumeration [AppState] of [../types],
    which the components import; its three members are the ones the
    components name. *)
Inductive AppState : Type := SCATTERED | TREE_SHAPE | TEXT_SHAPE.

Definition AppState_eqb (a b : AppState) : bool :=
  match a, b with
  | SCATTERED, SCATTERED | TREE_SHAPE, TREE_SHAPE | TEXT_SHAPE, TEXT_SHAPE => true
  | _, _ => false
  end.

(** ** ChristmasParticles *)

Module Particles.

Inductive ParticleType : Type := ornament | needle.

Inductive Color : Type := needleLight | needleDark | gold | goldHot.

Record ParticleData : Type := mkParticle {
  id : nat;
  scatterPosition : Vector3;
  treePosition : Vector3;
  textPosition : Vector3;
  currentPosition : Vector3;
  color : Color;
  scale : R;
  rotationSpeed : Vector3;
  type : ParticleType
}.

Definition set_currentPosition (p : ParticleData) (v : Vector3) : ParticleData :=
  mkParticle (id p) (scatterPosition p) (treePosition p) (textPosition p) v
             (color p) (scale p) (rotationSpeed p) (type p).

(** What [tempObject] holds when [updateMatrix] is called: [position],
    [rotation.x], [rotation.y] and the uniform [scale] ([rotation.z] is
    never written). *)
Record Transform : Type := mkTransform {
  position : Vector3;
  rotationX : R;
  rotationY : R;
  scalar : R
}.

(** *** The animation loop *)

(** 1. Determine Target *)
Definition target (appState : AppState) (particle : ParticleData) : Vector3 :=
  match appState with
  | TREE_SHAPE => treePosition particle
  | TEXT_SHAPE => textPosition particle
  | SCATTERED => scatterPosition particle
  end.

Definition isScattered (appState : AppState) : bool := AppState_eqb appState SCATTERED.
Definition isText (appState : AppState) : bool := AppState_eqb appState TEXT_SHAPE.
Definition isInteractionActive (appState : AppState) : bool :=
  isScattered appState || isText appState.

(** 2. [const lerpSpeed = isText ? 2.0 : 2.5] *)
Definition lerpSpeed (appState : AppState) : R :=
  if isText appState then 2.0 else 2.5.

Definition repulsionRadius : R := 8.0.

(** 3. Mouse repulsion of the working copy [pos] away from [mouse3D]. *)
Definition repel (pos mouse3D : Vector3) : Vector3 :=
  let dist := distanceTo pos mouse3D in
  if Rlt_dec dist repulsionRadius then
    let strength := (repulsionRadius - dist) / repulsionRadius in
    let dx := x pos - x mouse3D in
    let dy := y pos - y mouse3D in
    let dz := z pos - z mouse3D in
    let len := sqrt (dx * dx + dy * dy + dz * dz) in
    if Rgt_dec len 0.01 then
      let push := 5.0 * strength in
      mkVector3 (x pos + (dx / len) * push)
                (y pos + (dy / len) * push)
                (z pos + (dz / len) * push)
    else pos
  else pos.

(** The working copy after step 3: [hit] is this frame's intersection of
    the pointer ray with the interaction plane ([None] when there is
    none); when there is one, [mouse3D.current] has just been set to it. *)
Definition repulsed (appState : AppState) (hit : option Vector3)
    (pos : Vector3) : Vector3 :=
  match hit with
  | Some mouse3D => if isInteractionActive appState then repel pos mouse3D else pos
  | None => pos
  end.

(** 4. Hover / noise *)
Definition hoverY (appState : AppState) (time : R) (particle : ParticleData) : R :=
  let noiseAmp := if isScattered appState then 0.5 else 0.1 in
  let noiseFreq := if isScattered appState then 0.5 else 1.5 in
  sin (time * noiseFreq + INR (id particle)) * noiseAmp.

Definition scaleMult (appState : AppState) (time : R) (particle : ParticleData) : R :=
  let m := match type particle with
           | ornament => 1 + sin (time * 3 + INR (id particle)) * 0.2
           | needle => 1
           end in
  if isText appState then m * 1.2 else m.

(** The body of [particles.forEach] in [useFrame]: the particle with its
    [currentPosition] advanced, and the transform written to the mesh. *)
Definition updateParticle (appState : AppState) (hit : option Vector3)
    (delta time : R) (particle : ParticleData) : ParticleData * Transform :=
  let current := lerp (currentPosition particle) (target appState particle)
                      (delta * lerpSpeed appState) in
  let pos := repulsed appState hit (clone current) in
  let out := mkVector3 (x pos) (y pos + hoverY appState time particle) (z pos) in
  (set_currentPosition particle current,
   mkTransform out
               (time * x (rotationSpeed particle))
               (time * y (rotationSpeed particle))
               (scale particle * scaleMult appState time particle)).

(** The state the animation loop acts on: the particle array, the
    [mouse3D] ref and the instance matrices of the mesh. *)
Record Scene : Type := mkScene {
  particles : list ParticleData;
  mouse3D : Vector3;
  matrices : list Transform
}.

(** [useFrame]: nothing happens while the mesh is not mounted
    ([meshRef.current] null); otherwise [mouse3D] follows the hit and
    every particle is updated. *)
Definition useFrame (mesh : bool) (appState : AppState) (hit : option Vector3)
    (delta time : R) (s : Scene) : Scene :=
  if mesh then
    let updated := map (updateParticle appState hit delta time) (particles s) in
    mkScene (map fst updated)
            (match hit with Some h => h | None => mouse3D s end)
            (map snd updated)
  else s.

(** Successive frames seen by one particle: the application state and
    [delta] are fixed, each frame has its own pointer hit and clock time. *)
Fixpoint frames (inputs : list (option Vector3 * R)) (appState : AppState)
    (delta : R) (particle : ParticleData) : ParticleData :=
  match inputs with
  | [] => particle
  | (hit, time) :: rest =>
      frames rest appState delta
             (fst (updateParticle appState hit delta time particle))
  end.

(** The particle of the specification's end-to-end scenario: at the
    origin, with its tree position at [(1, 0, 0)]. *)
Definition scenarioParticle : ParticleData :=
  mkParticle 0 (mkVector3 0 0 0) (mkVector3 1 0 0) (mkVector3 0 0 0)
             (mkVector3 0 0 0) gold 0.1 (mkVector3 0 0 0) ornament.

(** *** Initialisation *)

(** The members of [CONFIG] (from [../constants]) that the initialisation
    reads; they are parameters of the model. *)
Record Config : Type := mkConfig {
  particleCount : nat;
  scatterRadius : R;
  treeHeight : R;
  treeBaseRadius : R
}.

(** [Math.cbrt]. *)
Definition cbrt (a : R) : R :=
  if Rlt_dec 0 a then Rpower a (/ 3)
  else if Rlt_dec a 0 then - Rpower (- a) (/ 3)
  else 0.

(** Computations that call [Math.random]: the state is the number of
    draws made so far. *)
Definition Rand (A : Type) : Type := nat -> A * nat.

Definition ret {A : Type} (a : A) : Rand A := fun n => (a, n).

Definition bind {A B : Type} (c : Rand A) (k : A -> Rand B) : Rand B :=
  fun n => let (a, n') := c n in k a n'.

Notation "v <- c ;; k" := (bind c (fun v => k))
  (at level 61, c at next level, right associativity).

Section Init.

Variable CONFIG : Config.

(** [draw k] is the value of the [k]-th call of [Math.random()]. *)
Variable draw : nat -> R.

Definition random : Rand R := fun n => (draw n, S n).

(** One iteration of the [for] loop of the [particles] memo. *)
Definition newParticle (i : nat) : Rand ParticleData :=
  r0 <- random ;;
  let isOrnament := if Rgt_dec r0 0.85 then true else false in
  u <- random ;;
  v <- random ;;
  let theta := 2 * PI * u in
  let phi := acos (2 * v - 1) in
  r3 <- random ;;
  let r := scatterRadius CONFIG * cbrt r3 in
  let scatterPos := mkVector3 (r * sin phi * cos theta)
                              (r * sin phi * sin theta)
                              (r * cos phi) in
  hPercent <- random ;;
  let y := (hPercent - 0.5) * treeHeight CONFIG in
  let currentRadius := treeBaseRadius CONFIG * (1 - hPercent) in
  ra <- random ;;
  let angle := INR i * 0.5 + ra * 0.5 in
  rn <- random ;;
  let radiusNoise := (rn - 0.5) * 0.5 in
  let finalRadius := Rmax 0 (currentRadius + radiusNoise) in
  let treePos := mkVector3 (cos angle * finalRadius) y (sin angle * finalRadius) in
  rc <- random ;;
  rs <- random ;;
  let color := if isOrnament
               then (if Rgt_dec rc 0.5 then gold else goldHot)
               else (if Rgt_dec rc 0.5 then needleLight else needleDark) in
  let scale := if isOrnament then rs * 0.15 + 0.1 else rs * 0.08 + 0.02 in
  rx <- random ;;
  ry <- random ;;
  rz <- random ;;
  ret (mkParticle i scatterPos treePos (clone scatterPos) (clone scatterPos)
                  color scale (mkVector3 rx ry rz)
                  (if isOrnament then ornament else needle)).

(** The loop [for (let i = 0; i < CONFIG.particleCount; i++)], with
    [count] iterations left and [data] pushed so far. *)
Fixpoint pushParticles (count i : nat) (data : list ParticleData)
    : Rand (list ParticleData) :=
  match count with
  | O => ret data
  | S c => p <- newParticle i ;; pushParticles c (S i) (data ++ [p])
  end.

Definition initParticles : list ParticleData :=
  fst (pushParticles (particleCount CONFIG) 0 [] 0%nat).

End Init.

(** The scale range of each particle type. *)
Definition scale_in_range (p : ParticleData) : Prop :=
  (type p = ornament -> 0.1 <= scale p < 0.25)
  /\ (type p = needle -> 0.02 <= scale p < 0.10).

(** A small instance used in examples: two particles, and a sequence of
    draws whose first value is 0.9 and whose other values are 0.5, which
    makes particle 0 an ornament and particle 1 a needle. *)
Definition exampleConfig : Config := mkConfig 2 50 20 8.

Definition exampleDraw (k : nat) : R := if (k =? 0)%nat then 0.9 else 0.5.

(** *** Text positions *)

Definition set_textPosition (p : ParticleData) (v : Vector3) : ParticleData :=
  mkParticle (id p) (scatterPosition p) (treePosition p) v (currentPosition p)
             (color p) (scale p) (rotationSpeed p) (type p).

Section TextLoad.

Variable draw : nat -> R.

(** [sampler.sample(tempSamplePos)]: the surface sampler of the text mesh
    writes a point into its argument; it draws from [Math.random] too, so
    it is a computation over the same sequence of draws. *)
Variable sample : Rand Vector3.

(** The body of [particles.forEach] in the font loader's callback. *)
Definition sampleTextPosition (p : ParticleData) : Rand ParticleData :=
  s <- sample ;;
  jx <- random draw ;;
  jy <- random draw ;;
  jz <- random draw ;;
  let tempSamplePos := mkVector3 (x s + (jx - 0.5) * 0.2)
                                 (y s + (jy - 0.5) * 0.2)
                                 (z s + (jz - 0.5) * 0.2) in
  ret (set_textPosition p tempSamplePos).

Fixpoint loadTextPositions (ps : list ParticleData) : Rand (list ParticleData) :=
  match ps with
  | [] => ret []
  | p :: rest =>
      p' <- sampleTextPosition p ;;
      rest' <- loadTextPositions rest ;;
      ret (p' :: rest')
  end.

End TextLoad.

(** *** Successive frames of the whole scene *)

(** What one call of the [useFrame] callback is given. *)
Record FrameInput : Type := mkFrameInput {
  meshMounted : bool;
  frameState : AppState;
  frameHit : option Vector3;
  frameDelta : R;
  frameTime : R
}.

Fixpoint animate (inputs : list FrameInput) (s : Scene) : Scene :=
  match inputs with
  | [] => s
  | i :: rest =>
      animate rest (useFrame (meshMounted i) (frameState i) (frameHit i)
                             (frameDelta i) (frameTime i) s)
  end.

(** The fields of a particle that no frame is meant to write. *)
Definition staticFields (p : ParticleData)
    : nat * Vector3 * Vector3 * Vector3 * Color * R * Vector3 * ParticleType :=
  (id p, scatterPosition p, treePosition p, textPosition p, color p, scale p,
   rotationSpeed p, type p).

Definition origin : Vector3 := mkVector3 0 0 0.

(** The distance of a point to the vertical axis. *)
Definition axisDistance (v : Vector3) : R := sqrt (x v * x v + z v * z v).

End Particles.

Import Particles.

(** ** GestureController *)

Module Gesture.

Record Landmark : Type := mkLandmark { lx : R; ly : R; lz : R }.

(** The refs and the React state the frame handler reads and writes. *)
Record Controller : Type := mkController {
  openHandStartTime : Z;
  lastVideoTime : R;
  appState : AppState
}.

(** Modelled from the spec: the initial application state, held by the
    parent component, is [SCATTERED]; the refs start at [0] and [-1]. *)
Definition initial : Controller := mkController 0 (-1) SCATTERED.

(** The argument of a React state setter: a value or an updater. *)
Inductive SetStateAction : Type :=
| Value (s : AppState)
| Updater (f : AppState -> AppState).

Definition setAppState (a : SetStateAction) (c : Controller) : Controller :=
  mkController (openHandStartTime c) (lastVideoTime c)
               (match a with Value s => s | Updater f => f (appState c) end).

Definition set_openHandStartTime (t : Z) (c : Controller) : Controller :=
  mkController t (lastVideoTime c) (appState c).

Definition set_lastVideoTime (t : R) (c : Controller) : Controller :=
  mkController (openHandStartTime c) t (appState c).

(** How one call of [predictWebcam] ends: it reaches its last line and
    requests the next animation frame, or a [TypeError] escapes it (the
    next frame is then never requested). Both carry the controller as the
    call left it. *)
Inductive Outcome : Type :=
| Scheduled (c : Controller)
| Thrown (c : Controller).

(** [landmarks[i]]: [None] is [undefined]. *)
Definition at_index (landmarks : list Landmark) (i : nat) : option Landmark :=
  nth_error landmarks i.

(** The distance of one fingertip to the wrist; reading [.x] of
    [undefined] throws ([None]). *)
Definition dist (tip wrist : option Landmark) : option R :=
  match tip, wrist with
  | Some t, Some w =>
      Some (sqrt ((lx t - lx w) ^ 2 + (ly t - ly w) ^ 2 + (lz t - lz w) ^ 2))
  | _, _ => None
  end.

(** [tips.forEach(tip => { ...; avgDist += dist })] *)
Fixpoint sumDist (tips : list (option Landmark)) (wrist : option Landmark)
    (avgDist : R) : option R :=
  match tips with
  | [] => Some avgDist
  | tip :: rest =>
      match dist tip wrist with
      | Some d => sumDist rest wrist (avgDist + d)
      | None => None
      end
  end.

Definition avgDist (landmarks : list Landmark) : option R :=
  let wrist := at_index landmarks 0 in
  let tips := map (at_index landmarks) [8; 12; 16; 20]%nat in
  match sumDist tips wrist 0 with
  | Some total => Some (total / INR (length tips))
  | None => None
  end.

Definition OPEN_THRESHOLD : R := 0.35.
Definition CLOSE_THRESHOLD : R := 0.25.

(** The three ways of the threshold test
    [if (avgDist > OPEN_THRESHOLD) ... else if (avgDist < CLOSE_THRESHOLD) ...]:
    open hand, closed fist, neither. *)
Inductive Signal : Type := OPEN | CLOSED | UNKNOWN.

Definition signal (avgDist : R) : Signal :=
  if Rgt_dec avgDist OPEN_THRESHOLD then OPEN
  else if Rlt_dec avgDist CLOSE_THRESHOLD then CLOSED
  else UNKNOWN.

(** OPEN HAND DETECTED *)
Definition openHand (now : Z) (c : Controller) : Controller :=
  if (openHandStartTime c =? 0)%Z then
    setAppState (Value SCATTERED) (set_openHandStartTime now c)
  else if (now - openHandStartTime c >? 5000)%Z then
    setAppState (Value TEXT_SHAPE) c
  else
    setAppState (Updater (fun prev =>
                   match prev with TEXT_SHAPE => TEXT_SHAPE | _ => SCATTERED end)) c.

(** CLOSED FIST DETECTED *)
Definition closedFist (c : Controller) : Controller :=
  setAppState (Value TREE_SHAPE) (set_openHandStartTime 0 c).

(** No hand detected *)
Definition noHand (c : Controller) : Controller := set_openHandStartTime 0 c.

(** One detection: [landmarks] is [result.landmarks] (one landmark list
    per detected hand; a missing field behaves as the empty list) and
    [now] is what [Date.now()] returns. *)
Record Frame : Type := mkFrame {
  landmarks : list (list Landmark);
  now : Z
}.

(** What [predictWebcam] does with a detection result. *)
Definition onResult (f : Frame) (c : Controller) : Outcome :=
  match landmarks f with
  | hand :: _ =>
      match avgDist hand with
      | Some a =>
          Scheduled (match signal a with
                     | OPEN => openHand (now f) c
                     | CLOSED => closedFist c
                     | UNKNOWN => c
                     end)
      | None => Thrown c
      end
  | [] => Scheduled (noHand c)
  end.

(** The video element as [predictWebcam] sees it ([None]: the ref is
    null). *)
Record Video : Type := mkVideo { readyState : nat; currentTime : R }.

(** [predictWebcam]: detection runs only when the video and the
    landmarker are there, the video has data and it has advanced. *)
Definition predictWebcam (video : option Video) (landmarker : bool)
    (f : Frame) (c : Controller) : Outcome :=
  match video with
  | Some v =>
      if landmarker && (2 <=? readyState v)%nat then
        if Req_dec_T (currentTime v) (lastVideoTime c) then Scheduled c
        else onResult f (set_lastVideoTime (currentTime v) c)
      else Scheduled c
  | None => Scheduled c
  end.

(** Successive detections, as long as the loop is alive. *)
Fixpoint run (fs : list Frame) (c : Controller) : Outcome :=
  match fs with
  | [] => Scheduled c
  | f :: rest =>
      match onResult f c with
      | Scheduled c' => run rest c'
      | Thrown c' => Thrown c'
      end
  end.

(** The classification of a frame in the specification's terms: no hand
    is [UNKNOWN], a hand is classified by its openness metric; [None]
    when the metric cannot be computed. *)
Definition classification (f : Frame) : option Signal :=
  match landmarks f with
  | hand :: _ => option_map signal (avgDist hand)
  | [] => Some UNKNOWN
  end.

(** The controllers the loop can reach from the initial one. *)
Definition Reachable (c : Controller) : Prop :=
  exists fs, run fs initial = Scheduled c.

(** Landmark lists used in examples: a hand of 21 points whose wrist is
    at the origin and whose other landmarks are all at [(r, 0, 0)], so
    that its openness metric is [r]. *)
Definition handOfMetric (r : R) : list Landmark :=
  mkLandmark 0 0 0 :: repeat (mkLandmark r 0 0) 20.

Definition frameOfMetric (r : R) (t : Z) : Frame := mkFrame [handOfMetric r] t.

Definition noHandFrame (t : Z) : Frame := mkFrame [] t.

(** The openness metric in the specification's words: the mean Euclidean
    distance from the four fingertips (landmarks 8, 12, 16, 20) to the
    wrist (landmark 0); [avgDist] above is what the source computes. *)
Definition tipDistance (w tip : Landmark) : R :=
  sqrt ((lx tip - lx w) ^ 2 + (ly tip - ly w) ^ 2 + (lz tip - lz w) ^ 2).

Definition meanTipDistance (w t8 t12 t16 t20 : Landmark) : R :=
  (tipDistance w t8 + tipDistance w t12 + tipDistance w t16 + tipDistance w t20) / 4.

(** A frame in which a hand is seen and not classified as closed. *)
Definition handStaysOpenish (f : Frame) : Prop :=
  landmarks f <> []
  /\ (classification f = Some OPEN \/ classification f = Some UNKNOWN).

(** A hand moved by a vector, and a hand scaled about the origin. *)
Definition translateLandmark (dx dy dz : R) (l : Landmark) : Landmark :=
  mkLandmark (lx l + dx) (ly l + dy) (lz l + dz).

Definition scaleLandmark (k : R) (l : Landmark) : Landmark :=
  mkLandmark (k * lx l) (k * ly l) (k * lz l).

(** The controller an outcome carries. *)
Definition controllerOf (o : Outcome) : Controller :=
  match o with Scheduled c => c | Thrown c => c end.

End Gesture.

Import Gesture.

(** ** UIOverlay *)

Module UIOverlay.

Import String.
Local Open Scope string_scope.

(** The children of the status line: each is [cond && "text"], and a
    false child renders nothing. *)
Definition statusLine (appState : AppState) : list string :=
  (if AppState_eqb appState SCATTERED then ["Keep holding..."] else [])
  ++ (if AppState_eqb appState TEXT_SHAPE then ["Special Surprise Unlocked!"] else [])
  ++ (if AppState_eqb appState TREE_SHAPE
      then ["The Star shines bright for you."] else []).

(** Whether the open-hand and the closed-fist columns get the
    highlighted class ([scale-110 opacity-100]) or the dimmed one. *)
Definition openHandHighlighted (appState : AppState) : bool :=
  AppState_eqb appState SCATTERED || AppState_eqb appState TEXT_SHAPE.

Definition closedFistHighlighted (appState : AppState) : bool :=
  AppState_eqb appState TREE_SHAPE.

Definition openHandPulses (appState : AppState) : bool :=
  AppState_eqb appState TEXT_SHAPE.

Definition openHandCaption (appState : AppState) : string :=
  if AppState_eqb appState TEXT_SHAPE then "Surprise!" else "Scatter".

End UIOverlay.


(** * Properties *)

(** ** Vector lemmas *)

Lemma distanceToSquared_nonneg (a v : Vector3) : 0 <= distanceToSquared a v.
Proof.
  unfold distanceToSquared; cbv zeta.
  generalize (x a - x v) (y a - y v) (z a - z v); intros dx dy dz.
  pose proof (Rle_0_sqr dx); pose proof (Rle_0_sqr dy); pose proof (Rle_0_sqr dz).
  unfold Rsqr in *; lra.
Qed.

Lemma distanceTo_nonneg (a v : Vector3) : 0 <= distanceTo a v.
Proof. apply sqrt_pos. Qed.

Lemma distanceToSquared_lerp (a v : Vector3) (alpha : R) :
  distanceToSquared (lerp a v alpha) v = Rsqr (1 - alpha) * distanceToSquared a v.
Proof. unfold distanceToSquared, lerp, Rsqr; cbn; ring. Qed.

(** One interpolation step scales the distance to the target by
    [|1 - alpha|]. *)
Lemma distanceTo_lerp (a v : Vector3) (alpha : R) :
  distanceTo (lerp a v alpha) v = Rabs (1 - alpha) * distanceTo a v.
Proof.
  unfold distanceTo.
  rewrite distanceToSquared_lerp, sqrt_mult.
  - now rewrite sqrt_Rsqr_abs.
  - apply Rle_0_sqr.
  - apply distanceToSquared_nonneg.
Qed.

Lemma Vector3_eq (a b : Vector3) :
  x a = x b -> y a = y b -> z a = z b -> a = b.
Proof. destruct a, b; cbn; intros; subst; reflexivity. Qed.

(** ** The per-frame update *)

Lemma updateParticle_currentPosition appState hit delta time particle :
  currentPosition (fst (updateParticle appState hit delta time particle))
  = lerp (currentPosition particle) (target appState particle)
         (delta * lerpSpeed appState).
Proof. reflexivity. Qed.

Lemma updateParticle_target appState st hit delta time particle :
  target st (fst (updateParticle appState hit delta time particle))
  = target st particle.
Proof. destruct st; reflexivity. Qed.

Lemma lerpSpeed_cases appState :
  lerpSpeed appState = match appState with TEXT_SHAPE => 2.0 | _ => 2.5 end.
Proof. destruct appState; reflexivity. Qed.

Lemma frames_distance inputs appState delta particle :
  distanceTo (currentPosition (frames inputs appState delta particle))
             (target appState particle)
  = Rabs (1 - delta * lerpSpeed appState) ^ length inputs
    * distanceTo (currentPosition particle) (target appState particle).
Proof.
  revert particle.
  induction inputs as [|[hit time] rest IH]; intros particle; cbn [frames length pow].
  - ring.
  - rewrite <- (updateParticle_target appState appState hit delta time particle) at 1.
    rewrite IH, updateParticle_target, updateParticle_currentPosition, distanceTo_lerp.
    ring.
Qed.

Lemma frames_ignore_hits inputs appState delta particle :
  currentPosition (frames inputs appState delta particle)
  = currentPosition
      (frames (map (fun i => (None, snd i)) inputs) appState delta particle).
Proof.
  assert (G : forall p q, currentPosition p = currentPosition q ->
                scatterPosition p = scatterPosition q ->
                treePosition p = treePosition q ->
                textPosition p = textPosition q ->
                currentPosition (frames inputs appState delta p)
                = currentPosition
                    (frames (map (fun i => (None, snd i)) inputs) appState delta q)).
  { induction inputs as [|[hit time] rest IH]; intros p q Hc Hs Ht Hx; cbn.
    - exact Hc.
    - apply IH; cbn; try assumption.
      unfold target; destruct appState; congruence. }
  now apply G.
Qed.

Lemma frames_app inputs more appState delta particle :
  frames (inputs ++ more) appState delta particle
  = frames more appState delta (frames inputs appState delta particle).
Proof.
  revert particle; induction inputs as [|[hit time] rest IH]; intros; cbn; auto.
Qed.

Lemma frames_target inputs appState st delta particle :
  target st (frames inputs appState delta particle) = target st particle.
Proof.
  revert particle; induction inputs as [|[hit time] rest IH]; intros;
    cbn [frames]; auto.
  now rewrite IH, updateParticle_target.
Qed.

Lemma between_lerp (c t alpha : R) :
  0 <= alpha <= 1 -> between c t (c + (t - c) * alpha).
Proof.
  intros H; unfold between.
  destruct (Rle_dec c t); [left | right]; nra.
Qed.

Lemma between_trans (a b m c : R) :
  between a b m -> between m b c -> between a b c.
Proof. unfold between; intros [?|?] [?|?]; lra. Qed.

Lemma within_lerp (a v : Vector3) (alpha : R) :
  0 <= alpha <= 1 -> within a v (lerp a v alpha).
Proof. intros H; repeat split; cbn; now apply between_lerp. Qed.

Lemma within_trans (a v m p : Vector3) :
  within a v m -> within m v p -> within a v p.
Proof.
  intros (?&?&?) (?&?&?); repeat split; eapply between_trans; eassumption.
Qed.

Lemma within_refl (a v : Vector3) : within a v a.
Proof.
  repeat split; unfold between;
    match goal with |- ?c <= _ <= ?t \/ _ => destruct (Rle_dec c t) end; lra.
Qed.

Lemma frames_within inputs appState delta particle :
  0 <= delta * lerpSpeed appState <= 1 ->
  within (currentPosition particle) (target appState particle)
         (currentPosition (frames inputs appState delta particle)).
Proof.
  intros H; revert particle.
  induction inputs as [|[hit time] rest IH]; intros particle; cbn [frames].
  - apply within_refl.
  - apply within_trans
      with (m := currentPosition (fst (updateParticle appState hit delta time particle))).
    + rewrite updateParticle_currentPosition. now apply within_lerp.
    + rewrite <- (updateParticle_target appState appState hit delta time particle).
      apply IH.
Qed.

(** ** C1: convergence of the interpolation *)

(** C1 (as amended). With a fixed application state (hence a fixed
    target and speed) and a fixed positive [delta] such that
    [delta * lerpSpeed < 2], every frame multiplies the distance from
    [currentPosition] to the target by [|1 - delta * lerpSpeed| < 1]: the
    distance strictly decreases on every frame on which it is not already
    zero, and it tends to zero, whatever the pointer does. When moreover
    [delta * lerpSpeed <= 1] no frame takes the position past the target. *)
Theorem lerp_converges_for_small_steps :
  forall (appState : AppState) (delta : R) (particle : ParticleData),
    0 < delta ->
    delta * lerpSpeed appState < 2 ->
    let tgt := target appState particle in
    let distance_after := fun inputs =>
      distanceTo (currentPosition (frames inputs appState delta particle)) tgt in
    (forall inputs,
       distance_after inputs
       = Rabs (1 - delta * lerpSpeed appState) ^ length inputs
         * distanceTo (currentPosition particle) tgt)
    /\ (forall inputs hit time,
          0 < distance_after inputs ->
          distance_after (inputs ++ [(hit, time)]) < distance_after inputs)
    /\ (forall eps, 0 < eps ->
          exists N, forall inputs, (N <= length inputs)%nat ->
            distance_after inputs < eps)
    /\ (delta * lerpSpeed appState <= 1 ->
        forall inputs,
          within (currentPosition particle) tgt
                 (currentPosition (frames inputs appState delta particle))).
Proof.
  intros appState delta particle Hd Hlt tgt distance_after.
  assert (Hs : 0 < lerpSpeed appState)
    by (rewrite lerpSpeed_cases; destruct appState; lra).
  assert (Ha : 0 < delta * lerpSpeed appState) by now apply Rmult_lt_0_compat.
  set (k := Rabs (1 - delta * lerpSpeed appState)).
  assert (Hk : 0 <= k < 1).
  { split; [apply Rabs_pos | apply Rabs_def1; lra]. }
  assert (Heq : forall inputs,
             distance_after inputs
             = k ^ length inputs * distanceTo (currentPosition particle) tgt).
  { intros inputs. apply frames_distance. }
  split; [exact Heq|]. split; [|split].
  - intros inputs hit time Hpos.
    rewrite (Heq (inputs ++ _)), length_app, Nat.add_comm. cbn [length Nat.add pow].
    rewrite Heq in Hpos |- *. nra.
  - intros eps Heps.
    set (d0 := distanceTo (currentPosition particle) tgt).
    assert (Hd0 : 0 <= d0) by apply distanceTo_nonneg.
    destruct (pow_lt_1_zero k) with (y := eps / (d0 + 1)) as [N HN].
    + rewrite Rabs_pos_eq; lra.
    + apply Rdiv_lt_0_compat; lra.
    + exists N. intros inputs Hlen. rewrite Heq. fold d0.
      specialize (HN (length inputs) Hlen).
      rewrite Rabs_pos_eq in HN by (apply pow_le; lra).
      assert (Hm : k ^ length inputs * (d0 + 1) < eps).
      { apply (Rmult_lt_compat_r (d0 + 1)) in HN; [|lra].
        unfold Rdiv in HN. rewrite Rmult_assoc, Rinv_l in HN; lra. }
      assert (0 <= k ^ length inputs) by (apply pow_le; lra).
      nra.
  - intros Hle inputs. apply frames_within. lra.
Qed.

Lemma lerp_converges_for_small_steps_witness :
  0 < 0.2 /\ 0.2 * lerpSpeed TREE_SHAPE < 2 /\
  forall inputs,
    within (mkVector3 0 0 0) (mkVector3 1 0 0)
           (currentPosition (frames inputs TREE_SHAPE 0.2 scenarioParticle)).
Proof.
  assert (H1 : 0 < 0.2) by lra.
  assert (H2 : 0.2 * lerpSpeed TREE_SHAPE < 2) by (cbn; lra).
  assert (H3 : 0.2 * lerpSpeed TREE_SHAPE <= 1) by (cbn; lra).
  split; [exact H1|]. split; [exact H2|].
  intros inputs.
  exact (proj2 (proj2 (proj2
           (lerp_converges_for_small_steps TREE_SHAPE 0.2 scenarioParticle H1 H2)))
           H3 inputs).
Defined.

(** C1 (as stated) fails at the scenario of the specification: with
    [delta = 1] in the tree state (speed 2.5), one update takes the
    particle from the origin to [(2.5, 0, 0)], past its target
    [(1, 0, 0)], and its distance to the target grows from 1 to 1.5. *)
Lemma lerp_overshoots_at_unit_delta :
  let p := scenarioParticle in
  let p' := fst (updateParticle TREE_SHAPE None 1 0 p) in
  currentPosition p' = mkVector3 2.5 0 0
  /\ distanceTo (currentPosition p) (target TREE_SHAPE p) = 1
  /\ distanceTo (currentPosition p') (target TREE_SHAPE p) = 1.5
  /\ ~ distanceTo (currentPosition p') (target TREE_SHAPE p)
       < distanceTo (currentPosition p) (target TREE_SHAPE p)
  /\ ~ within (currentPosition p) (target TREE_SHAPE p) (currentPosition p').
Proof.
  cbv zeta.
  assert (E : currentPosition
                (fst (updateParticle TREE_SHAPE None 1 0 scenarioParticle))
              = mkVector3 2.5 0 0).
  { cbn. apply Vector3_eq; cbn; lra. }
  rewrite E. cbn [currentPosition target treePosition scenarioParticle].
  assert (D1 : distanceTo (mkVector3 0 0 0) (mkVector3 1 0 0) = 1).
  { unfold distanceTo, distanceToSquared; cbn.
    replace ((0 - 1) * (0 - 1) + (0 - 0) * (0 - 0) + (0 - 0) * (0 - 0)) with 1 by ring.
    apply sqrt_1. }
  assert (D2 : distanceTo (mkVector3 2.5 0 0) (mkVector3 1 0 0) = 1.5).
  { unfold distanceTo, distanceToSquared; cbn.
    replace ((2.5 - 1) * (2.5 - 1) + (0 - 0) * (0 - 0) + (0 - 0) * (0 - 0))
      with (Rsqr 1.5) by (unfold Rsqr; lra).
    apply sqrt_Rsqr; lra. }
  rewrite D1, D2.
  split; [reflexivity|]. split; [reflexivity|]. split; [reflexivity|].
  split; [lra|].
  intros (Hx & _); unfold between in Hx; cbn in Hx; lra.
Qed.

(** ** C7: pointer repulsion *)

Lemma updateParticle_position appState hit delta time particle :
  position (snd (updateParticle appState hit delta time particle))
  = let pos := repulsed appState hit
                 (currentPosition (fst (updateParticle appState hit delta time particle))) in
    mkVector3 (x pos) (y pos + hoverY appState time particle) (z pos).
Proof. reflexivity. Qed.

Lemma push_norm (dx dy dz P : R) :
  0 < sqrt (dx * dx + dy * dy + dz * dz) ->
  0 <= P ->
  let d := sqrt (dx * dx + dy * dy + dz * dz) in
  sqrt ((dx / d * P) * (dx / d * P) + (dy / d * P) * (dy / d * P)
        + (dz / d * P) * (dz / d * P)) = P.
Proof.
  intros Hd HP d.
  assert (HS : dx * dx + dy * dy + dz * dz = d * d).
  { symmetry. apply sqrt_sqrt.
    pose proof (Rle_0_sqr dx); pose proof (Rle_0_sqr dy); pose proof (Rle_0_sqr dz).
    unfold Rsqr in *; lra. }
  fold d in Hd.
  replace ((dx / d * P) * (dx / d * P) + (dy / d * P) * (dy / d * P)
           + (dz / d * P) * (dz / d * P))
    with (P * P * ((dx * dx + dy * dy + dz * dz) / (d * d))) by (field; lra).
  rewrite HS.
  replace (P * P * (d * d / (d * d))) with (P * P) by (field; lra).
  now apply sqrt_square.
Qed.

Lemma repel_inside (pos mouse : Vector3) :
  let d := distanceTo pos mouse in
  0.01 < d < 8.0 ->
  repel pos mouse
  = mkVector3 (x pos + (x pos - x mouse) / d * (5.0 * (8.0 - d) / 8.0))
              (y pos + (y pos - y mouse) / d * (5.0 * (8.0 - d) / 8.0))
              (z pos + (z pos - z mouse) / d * (5.0 * (8.0 - d) / 8.0)).
Proof.
  intros d [Hlo Hhi]. unfold repel, repulsionRadius.
  change (distanceTo pos mouse) with d.
  change (sqrt ((x pos - x mouse) * (x pos - x mouse)
                + (y pos - y mouse) * (y pos - y mouse)
                + (z pos - z mouse) * (z pos - z mouse))) with d.
  cbv zeta.
  destruct (Rlt_dec d 8.0) as [_|n]; [|contradiction].
  destruct (Rgt_dec d 0.01) as [_|n]; [|exfalso; apply n; lra].
  apply Vector3_eq; cbn; field; lra.
Qed.

Lemma repel_outside (pos mouse : Vector3) :
  let d := distanceTo pos mouse in
  d <= 0.01 \/ 8.0 <= d ->
  repel pos mouse = pos.
Proof.
  intros d H. unfold repel, repulsionRadius.
  change (distanceTo pos mouse) with d.
  change (sqrt ((x pos - x mouse) * (x pos - x mouse)
                + (y pos - y mouse) * (y pos - y mouse)
                + (z pos - z mouse) * (z pos - z mouse))) with d.
  cbv zeta.
  destruct (Rlt_dec d 8.0) as [l|n]; [|reflexivity].
  destruct (Rgt_dec d 0.01) as [g|n]; [|reflexivity].
  exfalso; lra.
Qed.

Lemma repel_magnitude (pos mouse : Vector3) :
  let d := distanceTo pos mouse in
  0.01 < d < 8.0 ->
  distanceTo (repel pos mouse) pos = 5.0 * (8.0 - d) / 8.0.
Proof.
  intros d H. rewrite repel_inside by exact H. fold d.
  unfold distanceTo at 1. unfold distanceToSquared. cbn [x y z]. cbv zeta.
  set (P := 5.0 * (8.0 - d) / 8.0).
  replace (x pos + (x pos - x mouse) / d * P - x pos)
    with ((x pos - x mouse) / d * P) by ring.
  replace (y pos + (y pos - y mouse) / d * P - y pos)
    with ((y pos - y mouse) / d * P) by ring.
  replace (z pos + (z pos - z mouse) / d * P - z pos)
    with ((z pos - z mouse) / d * P) by ring.
  apply (push_norm (x pos - x mouse) (y pos - y mouse) (z pos - z mouse) P).
  - change (0 < d). lra.
  - unfold P. lra.
Qed.

(** C7 (as amended). The rendered position is the working copy [pos]
    raised by the hover offset. The working copy is the interpolated
    [currentPosition] itself in the tree state or when the pointer ray
    has no hit; otherwise, with [d] the distance from the interpolated
    position to the pointer, it is pushed away from the pointer along the
    normalised separation vector by exactly [5.0 * (8.0 - d) / 8.0] when
    [0.01 < d < 8.0] (2.5 at [d = 4.0]) and not at all when [d <= 0.01]
    or [8.0 <= d]. *)
Theorem repulsion_push :
  forall (appState : AppState) (hit : option Vector3) (delta time : R)
         (particle : ParticleData),
    let current :=
      currentPosition (fst (updateParticle appState hit delta time particle)) in
    let pos := repulsed appState hit current in
    position (snd (updateParticle appState hit delta time particle))
    = mkVector3 (x pos) (y pos + hoverY appState time particle) (z pos)
    /\ (appState = TREE_SHAPE \/ hit = None -> pos = current)
    /\ (forall mouse, hit = Some mouse -> appState <> TREE_SHAPE ->
          let d := distanceTo current mouse in
          (0.01 < d < 8.0 ->
             pos = mkVector3
                     (x current + (x current - x mouse) / d * (5.0 * (8.0 - d) / 8.0))
                     (y current + (y current - y mouse) / d * (5.0 * (8.0 - d) / 8.0))
                     (z current + (z current - z mouse) / d * (5.0 * (8.0 - d) / 8.0))
             /\ distanceTo pos current = 5.0 * (8.0 - d) / 8.0)
          /\ (d <= 0.01 \/ 8.0 <= d -> pos = current)
          /\ (d = 4.0 -> distanceTo pos current = 2.5)).
Proof.
  intros appState hit delta time particle current pos.
  split; [apply updateParticle_position|]. split.
  - intros [-> | ->]; unfold pos, repulsed; [destruct hit|]; reflexivity.
  - intros mouse -> Hst d.
    assert (E : pos = repel current mouse).
    { unfold pos, repulsed. destruct appState; try reflexivity. congruence. }
    rewrite E. split; [|split].
    + intros H. split; [now apply repel_inside | now apply repel_magnitude].
    + intros H. now apply repel_outside.
    + intros H4. rewrite repel_magnitude by (fold d; lra). fold d. lra.
Qed.

(** A particle resting at [(r, 0, 0)] in the scattered state. *)
Lemma resting_particle_stays (r delta time : R) (hit : option Vector3) :
  let p := mkParticle 0 (mkVector3 r 0 0) (mkVector3 0 0 0) (mkVector3 0 0 0)
                      (mkVector3 r 0 0) needleDark 0.05 (mkVector3 0 0 0) needle in
  currentPosition (fst (updateParticle SCATTERED hit delta time p)) = mkVector3 r 0 0.
Proof. cbn. apply Vector3_eq; cbn; ring. Qed.

Lemma distance_on_axis (r : R) :
  0 <= r -> distanceTo (mkVector3 r 0 0) (mkVector3 0 0 0) = r.
Proof.
  intros Hr. unfold distanceTo, distanceToSquared; cbn.
  replace ((r - 0) * (r - 0) + (0 - 0) * (0 - 0) + (0 - 0) * (0 - 0))
    with (r * r) by ring.
  now apply sqrt_square.
Qed.

(** C7 (as stated) fails at [d = 0.01]: a particle resting at
    [(0.01, 0, 0)] with the pointer at the origin is at a distance that
    is below 8.0 and not below 0.01, yet the update does not push it: the
    source's guard is [len > 0.01]. *)
Lemma no_push_at_one_hundredth :
  let p := mkParticle 0 (mkVector3 0.01 0 0) (mkVector3 0 0 0) (mkVector3 0 0 0)
                      (mkVector3 0.01 0 0) needleDark 0.05 (mkVector3 0 0 0) needle in
  let mouse := mkVector3 0 0 0 in
  let current :=
    currentPosition (fst (updateParticle SCATTERED (Some mouse) 0.016 0 p)) in
  let d := distanceTo current mouse in
  d = 0.01 /\ ~ d < 0.01 /\ d < 8.0
  /\ repulsed SCATTERED (Some mouse) current = current
  /\ position (snd (updateParticle SCATTERED (Some mouse) 0.016 0 p)) = current
  /\ distanceTo (repulsed SCATTERED (Some mouse) current) current
     <> 5.0 * (8.0 - d) / 8.0.
Proof.
  cbv zeta.
  pose proof (resting_particle_stays 0.01 0.016 0 (Some (mkVector3 0 0 0))) as E.
  cbv zeta in E.
  assert (D : distanceTo (mkVector3 0.01 0 0) (mkVector3 0 0 0) = 0.01)
    by (apply distance_on_axis; lra).
  assert (N : repel (mkVector3 0.01 0 0) (mkVector3 0 0 0) = mkVector3 0.01 0 0)
    by (apply repel_outside; cbv zeta; rewrite D; lra).
  assert (Q : repulsed SCATTERED (Some (mkVector3 0 0 0)) (mkVector3 0.01 0 0)
              = mkVector3 0.01 0 0) by exact N.
  split; [now rewrite E|]. split; [rewrite E, D; lra|]. split; [rewrite E, D; lra|].
  split; [now rewrite E|]. split.
  - rewrite updateParticle_position. cbv zeta.
    rewrite E, Q. apply Vector3_eq; cbn; try reflexivity.
    unfold hoverY; cbn. replace (0 * 0.5 + 0) with 0 by ring. rewrite sin_0. ring.
  - rewrite E, Q, D.
    replace (distanceTo (mkVector3 0.01 0 0) (mkVector3 0.01 0 0)) with 0.
    + lra.
    + unfold distanceTo, distanceToSquared; cbn.
      replace ((0.01 - 0.01) * (0.01 - 0.01) + (0 - 0) * (0 - 0) + (0 - 0) * (0 - 0))
        with 0 by ring.
      now rewrite sqrt_0.
Qed.

(** The boundary cases of the specification: a resting particle at
    distance 4.0 from the pointer is rendered 2.5 further away, one at
    distance 8.0 is not moved. *)
Example push_at_distance_four :
  repulsed SCATTERED (Some (mkVector3 0 0 0)) (mkVector3 4.0 0 0) = mkVector3 6.5 0 0
  /\ repulsed TEXT_SHAPE (Some (mkVector3 0 0 0)) (mkVector3 8.0 0 0) = mkVector3 8.0 0 0.
Proof.
  split.
  - change (repel (mkVector3 4.0 0 0) (mkVector3 0 0 0) = mkVector3 6.5 0 0).
    rewrite repel_inside by (cbv zeta; rewrite distance_on_axis; lra).
    rewrite distance_on_axis by lra.
    apply Vector3_eq; cbn; lra.
  - change (repel (mkVector3 8.0 0 0) (mkVector3 0 0 0) = mkVector3 8.0 0 0).
    apply repel_outside. cbv zeta. rewrite distance_on_axis; lra.
Qed.

(** ** C8: the update touches [currentPosition] only *)

(** C8. The per-particle update leaves every field but [currentPosition]
    as it was, and [currentPosition] becomes the interpolation result,
    the same with or without a pointer hit; over successive frames the
    stored position does not depend on the hits at all. The frame as a
    whole does this to every particle (and nothing while the mesh is not
    mounted). *)
Theorem update_writes_only_currentPosition :
  forall (appState : AppState) (hit : option Vector3) (delta time : R)
         (particle : ParticleData),
    let particle' := fst (updateParticle appState hit delta time particle) in
    (id particle' = id particle
     /\ scatterPosition particle' = scatterPosition particle
     /\ treePosition particle' = treePosition particle
     /\ textPosition particle' = textPosition particle
     /\ color particle' = color particle
     /\ scale particle' = scale particle
     /\ rotationSpeed particle' = rotationSpeed particle
     /\ type particle' = type particle)
    /\ currentPosition particle'
       = lerp (currentPosition particle) (target appState particle)
              (delta * lerpSpeed appState)
    /\ particle' = fst (updateParticle appState None delta time particle)
    /\ (forall inputs,
          currentPosition (frames inputs appState delta particle)
          = currentPosition
              (frames (map (fun i => (None, snd i)) inputs) appState delta particle))
    /\ (forall s,
          particles (useFrame true appState hit delta time s)
          = map (fun p => set_currentPosition p
                            (lerp (currentPosition p) (target appState p)
                                  (delta * lerpSpeed appState)))
                (particles s)
          /\ useFrame false appState hit delta time s = s).
Proof.
  intros appState hit delta time particle particle'.
  split; [repeat split|]. split; [reflexivity|]. split; [reflexivity|].
  split; [intros; apply frames_ignore_hits|].
  intros s. split; [|reflexivity].
  unfold useFrame. cbn [particles]. rewrite map_map. reflexivity.
Qed.

(** ** C9: target and speed by application state *)

(** C9. The update interpolates towards [treePosition] in the tree
    state, [textPosition] in the text state and [scatterPosition] in the
    scattered state, by [delta * 2.0] in the text state and [delta * 2.5]
    in the other two. *)
Theorem target_and_speed_by_state :
  forall (hit : option Vector3) (delta time : R) (particle : ParticleData),
    let after := fun appState =>
      currentPosition (fst (updateParticle appState hit delta time particle)) in
    (target TREE_SHAPE particle = treePosition particle
     /\ target TEXT_SHAPE particle = textPosition particle
     /\ target SCATTERED particle = scatterPosition particle)
    /\ (lerpSpeed TEXT_SHAPE = 2.0 /\ lerpSpeed TREE_SHAPE = 2.5
        /\ lerpSpeed SCATTERED = 2.5)
    /\ after TREE_SHAPE
       = lerp (currentPosition particle) (treePosition particle) (delta * 2.5)
    /\ after TEXT_SHAPE
       = lerp (currentPosition particle) (textPosition particle) (delta * 2.0)
    /\ after SCATTERED
       = lerp (currentPosition particle) (scatterPosition particle) (delta * 2.5).
Proof.
  intros hit delta time particle after.
  repeat split; reflexivity.
Qed.

(** ** C10: base scale by particle type *)

(** What one iteration of the initialisation loop yields, in terms of the
    draws it consumes: twelve, of which the first decides the type and
    the ninth the scale. *)
Lemma newParticle_spec (CONFIG : Config) (draw : nat -> R) (i n : nat) :
  let p := fst (newParticle CONFIG draw i n) in
  snd (newParticle CONFIG draw i n) = (n + 12)%nat
  /\ id p = i
  /\ currentPosition p = scatterPosition p
  /\ textPosition p = scatterPosition p
  /\ (draw n > 0.85 -> type p = ornament /\ scale p = draw (n + 8)%nat * 0.15 + 0.1)
  /\ (~ draw n > 0.85 -> type p = needle /\ scale p = draw (n + 8)%nat * 0.08 + 0.02).
Proof.
  cbv [newParticle bind random ret]. cbn [fst snd].
  replace (n + 12)%nat with (S (S (S (S (S (S (S (S (S (S (S (S n)))))))))))) by lia.
  replace (n + 8)%nat with (S (S (S (S (S (S (S (S n)))))))) by lia.
  destruct (Rgt_dec (draw n) 0.85) as [g|ng]; cbn;
    repeat split; try reflexivity; intros; try contradiction.
Qed.

Lemma newParticle_scale (CONFIG : Config) (draw : nat -> R) (i n : nat) :
  (forall k, 0 <= draw k < 1) ->
  scale_in_range (fst (newParticle CONFIG draw i n)).
Proof.
  intros Hdraw.
  destruct (newParticle_spec CONFIG draw i n) as (_ & _ & _ & _ & Ho & Hn).
  specialize (Hdraw (n + 8)%nat).
  destruct (Rgt_dec (draw n) 0.85) as [g|ng].
  - destruct (Ho g) as [Ht Hs]. split; intros H; rewrite Hs; [lra | congruence].
  - destruct (Hn ng) as [Ht Hs]. split; intros H; rewrite Hs; [congruence | lra].
Qed.

Lemma pushParticles_scale (CONFIG : Config) (draw : nat -> R) :
  (forall k, 0 <= draw k < 1) ->
  forall count i data n,
    Forall scale_in_range data ->
    Forall scale_in_range (fst (pushParticles CONFIG draw count i data n)).
Proof.
  intros Hdraw count.
  induction count as [|c IH]; intros i data n Hdata; cbn [pushParticles].
  - exact Hdata.
  - unfold bind.
    pose proof (newParticle_scale CONFIG draw i n Hdraw) as Hp.
    destruct (newParticle CONFIG draw i n) as [p n']. cbn [fst] in Hp.
    apply IH. apply Forall_app. split; [exact Hdata | now constructor].
Qed.

Lemma pushParticles_length (CONFIG : Config) (draw : nat -> R) :
  forall count i data n,
    length (fst (pushParticles CONFIG draw count i data n))
    = (length data + count)%nat.
Proof.
  induction count as [|c IH]; intros i data n; cbn [pushParticles].
  - cbn. lia.
  - unfold bind. destruct (newParticle CONFIG draw i n) as [p n'].
    rewrite IH, length_app. cbn. lia.
Qed.

(** C10. Whatever [Math.random] returns (values in [[0, 1)]), the
    initialisation creates [CONFIG.particleCount] particles, gives every
    ornament a base scale in [[0.1, 0.25)] and every needle one in
    [[0.02, 0.10)]; hence every ornament's base scale is strictly greater
    than every needle's. *)
Theorem init_scale_ranges :
  forall (CONFIG : Config) (draw : nat -> R),
    (forall k, 0 <= draw k < 1) ->
    length (initParticles CONFIG draw) = particleCount CONFIG
    /\ (forall p, In p (initParticles CONFIG draw) ->
          (type p = ornament -> 0.1 <= scale p < 0.25)
          /\ (type p = needle -> 0.02 <= scale p < 0.10))
    /\ (forall p q,
          In p (initParticles CONFIG draw) -> In q (initParticles CONFIG draw) ->
          type p = ornament -> type q = needle -> scale q < scale p).
Proof.
  intros CONFIG draw Hdraw.
  assert (HF : Forall scale_in_range (initParticles CONFIG draw)).
  { apply pushParticles_scale; [exact Hdraw | constructor]. }
  rewrite Forall_forall in HF.
  split; [apply pushParticles_length|]. split.
  - intros p Hp. exact (HF p Hp).
  - intros p q Hp Hq Tp Tq.
    destruct (HF p Hp) as [Ho _]. destruct (HF q Hq) as [_ Hn].
    specialize (Ho Tp). specialize (Hn Tq). lra.
Qed.

Lemma exampleDraw_range : forall k, 0 <= exampleDraw k < 1.
Proof. intros k; unfold exampleDraw; destruct (k =? 0)%nat; lra. Qed.

(** The example instance has one particle of each type, with base scales
    0.175 and 0.06. *)
Example example_particles :
  map type (initParticles exampleConfig exampleDraw) = [ornament; needle]
  /\ map scale (initParticles exampleConfig exampleDraw)
     = [0.5 * 0.15 + 0.1; 0.5 * 0.08 + 0.02].
Proof.
  unfold initParticles. cbn [particleCount exampleConfig pushParticles].
  unfold bind.
  destruct (newParticle_spec exampleConfig exampleDraw 0 0%nat) as (E0 & _ & _ & _ & O0 & _).
  destruct (newParticle_spec exampleConfig exampleDraw 1 12%nat) as (E1 & _ & _ & _ & _ & N1).
  cbv zeta in *.
  destruct (newParticle exampleConfig exampleDraw 0 0%nat) as [p0 n0].
  cbn [fst snd] in *. subst n0. cbn [Nat.add app].
  destruct (newParticle exampleConfig exampleDraw 1 12%nat) as [p1 n1].
  cbn [fst snd ret map] in *.
  destruct O0 as [T0 S0]; [cbn; lra|].
  destruct N1 as [T1 S1]; [cbn; lra|].
  rewrite T0, T1, S0, S1. cbn. split; reflexivity.
Qed.

Lemma init_scale_ranges_witness :
  (forall k, 0 <= exampleDraw k < 1)
  /\ length (initParticles exampleConfig exampleDraw) = 2%nat
  /\ forall p q,
       In p (initParticles exampleConfig exampleDraw) ->
       In q (initParticles exampleConfig exampleDraw) ->
       type p = ornament -> type q = needle -> scale q < scale p.
Proof.
  split; [exact exampleDraw_range|].
  split.
  - exact (proj1 (init_scale_ranges exampleConfig exampleDraw exampleDraw_range)).
  - exact (proj2 (proj2 (init_scale_ranges exampleConfig exampleDraw exampleDraw_range))).
Defined.

(** ** The gesture classifier *)

Lemma avgDist_mean (hand : list Landmark) (w t8 t12 t16 t20 : Landmark) :
  nth_error hand 0 = Some w ->
  nth_error hand 8 = Some t8 -> nth_error hand 12 = Some t12 ->
  nth_error hand 16 = Some t16 -> nth_error hand 20 = Some t20 ->
  avgDist hand = Some (meanTipDistance w t8 t12 t16 t20).
Proof.
  intros Hw H8 H12 H16 H20.
  unfold avgDist, at_index. cbn [map]. rewrite Hw, H8, H12, H16, H20.
  cbn [sumDist dist length]. f_equal.
  unfold meanTipDistance, tipDistance.
  change (INR 4) with (1 + 1 + 1 + 1). field.
Qed.

Lemma avgDist_defined (hand : list Landmark) :
  (21 <= length hand)%nat -> exists a, avgDist hand = Some a.
Proof.
  intros Hlen.
  assert (G : forall i, (i < 21)%nat -> exists l, nth_error hand i = Some l).
  { intros i Hi. destruct (nth_error hand i) eqn:E; [eauto|].
    apply nth_error_None in E. lia. }
  destruct (G 0%nat) as [w Hw]; [lia|].
  destruct (G 8%nat) as [t8 H8]; [lia|].
  destruct (G 12%nat) as [t12 H12]; [lia|].
  destruct (G 16%nat) as [t16 H16]; [lia|].
  destruct (G 20%nat) as [t20 H20]; [lia|].
  eexists. now apply (avgDist_mean hand w t8 t12 t16 t20).
Qed.

Lemma dist_undefined_tip (wrist : option Landmark) : dist None wrist = None.
Proof. reflexivity. Qed.

Lemma avgDist_short (hand : list Landmark) :
  (length hand < 21)%nat -> avgDist hand = None.
Proof.
  intros Hlen.
  assert (H20 : nth_error hand 20 = None) by (apply nth_error_None; lia).
  unfold avgDist, at_index. cbn [map sumDist]. rewrite H20.
  destruct (dist (nth_error hand 8) (nth_error hand 0)); [|reflexivity].
  destruct (dist (nth_error hand 12) (nth_error hand 0)); [|reflexivity].
  destruct (dist (nth_error hand 16) (nth_error hand 0)); [|reflexivity].
  rewrite dist_undefined_tip. reflexivity.
Qed.

Lemma signal_open (a : R) : signal a = OPEN <-> a > 0.35.
Proof.
  unfold signal, OPEN_THRESHOLD, CLOSE_THRESHOLD.
  destruct (Rgt_dec a 0.35); [tauto|].
  destruct (Rlt_dec a 0.25); split; intros; try discriminate; contradiction.
Qed.

Lemma signal_closed (a : R) : signal a = CLOSED <-> a < 0.25.
Proof.
  unfold signal, OPEN_THRESHOLD, CLOSE_THRESHOLD.
  destruct (Rgt_dec a 0.35); [split; intros; [discriminate | lra]|].
  destruct (Rlt_dec a 0.25); split; intros; try discriminate; tauto.
Qed.

Lemma signal_unknown (a : R) : signal a = UNKNOWN <-> 0.25 <= a <= 0.35.
Proof.
  unfold signal, OPEN_THRESHOLD, CLOSE_THRESHOLD.
  destruct (Rgt_dec a 0.35); [split; intros; [discriminate | lra]|].
  destruct (Rlt_dec a 0.25); split; intros; try discriminate; try lra; reflexivity.
Qed.

Lemma tipDistance_on_axis (r : R) :
  0 <= r -> tipDistance (mkLandmark 0 0 0) (mkLandmark r 0 0) = r.
Proof.
  intros Hr. unfold tipDistance; cbn.
  replace ((r - 0) * ((r - 0) * 1) + (0 - 0) * ((0 - 0) * 1) + (0 - 0) * ((0 - 0) * 1))
    with (r * r) by ring.
  now apply sqrt_square.
Qed.

Lemma avgDist_handOfMetric (r : R) :
  0 <= r -> avgDist (handOfMetric r) = Some r.
Proof.
  intros Hr.
  rewrite (avgDist_mean (handOfMetric r) (mkLandmark 0 0 0) (mkLandmark r 0 0)
             (mkLandmark r 0 0) (mkLandmark r 0 0) (mkLandmark r 0 0));
    try reflexivity.
  unfold meanTipDistance. rewrite tipDistance_on_axis by exact Hr.
  f_equal. field.
Qed.

(** [predictWebcam] handles a detection when the video is ready and has
    advanced, and otherwise leaves the controller as it is. *)
Lemma predictWebcam_detects (v : Video) (f : Frame) (c : Controller) :
  (2 <= readyState v)%nat ->
  currentTime v <> lastVideoTime c ->
  predictWebcam (Some v) true f c
  = onResult f (set_lastVideoTime (currentTime v) c).
Proof.
  intros Hready Hadv. unfold predictWebcam.
  destruct (Nat.leb_spec 2 (readyState v)); [|lia]. cbn [andb].
  destruct (Req_dec_T (currentTime v) (lastVideoTime c)); [contradiction | reflexivity].
Qed.

Lemma predictWebcam_skips (v : Video) (f : Frame) (c : Controller) :
  currentTime v = lastVideoTime c ->
  predictWebcam (Some v) true f c = Scheduled c
  /\ predictWebcam None true f c = Scheduled c
  /\ predictWebcam (Some v) false f c = Scheduled c.
Proof.
  intros Hsame. unfold predictWebcam. cbn [andb].
  destruct (2 <=? readyState v)%nat; repeat split;
    destruct (Req_dec_T (currentTime v) (lastVideoTime c)); try reflexivity;
    contradiction.
Qed.

(** What the frame handler does, by the classification of the frame. *)
Lemma onResult_hand (hand : list Landmark) (rest : list (list Landmark))
    (t : Z) (c : Controller) (a : R) :
  avgDist hand = Some a ->
  onResult (mkFrame (hand :: rest) t) c
  = Scheduled (match signal a with
               | OPEN => openHand t c
               | CLOSED => closedFist c
               | UNKNOWN => c
               end).
Proof. intros H. unfold onResult. cbn [landmarks now]. now rewrite H. Qed.

Lemma onResult_open (f : Frame) (c : Controller) :
  classification f = Some OPEN -> onResult f c = Scheduled (openHand (now f) c).
Proof.
  destruct f as [[|hand rest] t]; unfold classification, onResult; cbn [landmarks now];
    [discriminate|].
  destruct (avgDist hand) as [a|]; cbn; [|discriminate].
  intros H; injection H as ->. reflexivity.
Qed.

Lemma onResult_closed (f : Frame) (c : Controller) :
  classification f = Some CLOSED -> onResult f c = Scheduled (closedFist c).
Proof.
  destruct f as [[|hand rest] t]; unfold classification, onResult; cbn [landmarks now];
    [discriminate|].
  destruct (avgDist hand) as [a|]; cbn; [|discriminate].
  intros H; injection H as ->. reflexivity.
Qed.

Lemma onResult_unknown (f : Frame) (c : Controller) :
  classification f = Some UNKNOWN ->
  (landmarks f = [] /\ onResult f c = Scheduled (noHand c))
  \/ (landmarks f <> [] /\ onResult f c = Scheduled c).
Proof.
  destruct f as [[|hand rest] t]; unfold classification, onResult; cbn [landmarks now].
  - left; split; reflexivity.
  - destruct (avgDist hand) as [a|]; cbn; [|discriminate].
    intros H; injection H as ->. right; split; [discriminate | reflexivity].
Qed.

Lemma onResult_frameOfMetric (r : R) (t : Z) (c : Controller) :
  0 <= r ->
  onResult (frameOfMetric r t) c
  = Scheduled (match signal r with
               | OPEN => openHand t c
               | CLOSED => closedFist c
               | UNKNOWN => c
               end).
Proof. intros Hr. apply onResult_hand. now apply avgDist_handOfMetric. Qed.

Lemma classification_frameOfMetric (r : R) (t : Z) :
  0 <= r -> classification (frameOfMetric r t) = Some (signal r).
Proof.
  intros Hr. unfold classification, frameOfMetric; cbn [landmarks].
  now rewrite avgDist_handOfMetric.
Qed.

(** ** C5: thresholds of the classifier *)

(** C5. For a hand whose landmarks 0, 8, 12, 16 and 20 are there, the
    metric the handler computes is the mean distance of the four
    fingertips to the wrist; the frame is classified [OPEN] exactly when
    the metric exceeds 0.35, [CLOSED] exactly when it is below 0.25 and
    [UNKNOWN] exactly when it lies between the two; a frame without a
    hand is [UNKNOWN]. The handler acts by that classification and leaves
    the controller as it is in the dead band, so a hand held at metric
    0.30 never changes anything; metrics 0.40 and 0.20 give [OPEN] and
    [CLOSED]. *)
Theorem classifier_thresholds :
  forall (hand : list Landmark) (rest : list (list Landmark)) (t : Z)
         (c : Controller) (w t8 t12 t16 t20 : Landmark),
    nth_error hand 0 = Some w ->
    nth_error hand 8 = Some t8 -> nth_error hand 12 = Some t12 ->
    nth_error hand 16 = Some t16 -> nth_error hand 20 = Some t20 ->
    let metric := meanTipDistance w t8 t12 t16 t20 in
    let f := mkFrame (hand :: rest) t in
    avgDist hand = Some metric
    /\ (classification f = Some OPEN <-> metric > 0.35)
    /\ (classification f = Some CLOSED <-> metric < 0.25)
    /\ (classification f = Some UNKNOWN <-> 0.25 <= metric <= 0.35)
    /\ classification (noHandFrame t) = Some UNKNOWN
    /\ onResult f c
       = Scheduled (match classification f with
                    | Some OPEN => openHand t c
                    | Some CLOSED => closedFist c
                    | _ => c
                    end)
    /\ (metric = 0.30 ->
        forall ts, run (map (fun t' => mkFrame (hand :: rest) t') ts) c = Scheduled c)
    /\ (forall t1 t2,
          classification (frameOfMetric 0.40 t1) = Some OPEN
          /\ classification (frameOfMetric 0.20 t2) = Some CLOSED
          /\ run [frameOfMetric 0.40 t1; frameOfMetric 0.20 t2] c
             = Scheduled (closedFist (openHand t1 c))).
Proof.
  intros hand rest t c w t8 t12 t16 t20 Hw H8 H12 H16 H20 metric f.
  pose proof (avgDist_mean hand w t8 t12 t16 t20 Hw H8 H12 H16 H20) as Havg.
  fold metric in Havg.
  assert (Hc : classification f = Some (signal metric)).
  { unfold classification, f; cbn [landmarks]. now rewrite Havg. }
  split; [exact Havg|]. rewrite Hc.
  split; [split; [intros H; injection H as H; now apply signal_open
                 | intros H; f_equal; now apply signal_open]|].
  split; [split; [intros H; injection H as H; now apply signal_closed
                 | intros H; f_equal; now apply signal_closed]|].
  split; [split; [intros H; injection H as H; now apply signal_unknown
                 | intros H; f_equal; now apply signal_unknown]|].
  split; [reflexivity|].
  split; [unfold f; rewrite (onResult_hand hand rest t c metric Havg);
          now destruct (signal metric)|].
  split.
  - intros Hm ts. induction ts as [|t' ts IH]; cbn [map run]; [reflexivity|].
    rewrite (onResult_hand hand rest t' c metric Havg).
    assert (Hu : signal metric = UNKNOWN) by (apply signal_unknown; lra).
    rewrite Hu. exact IH.
  - intros t1 t2.
    assert (Ho : signal 0.40 = OPEN) by (apply signal_open; lra).
    assert (Hcl : signal 0.20 = CLOSED) by (apply signal_closed; lra).
    rewrite !classification_frameOfMetric by lra. rewrite Ho, Hcl.
    split; [reflexivity|]. split; [reflexivity|].
    cbn [run]. rewrite onResult_frameOfMetric by lra. rewrite Ho.
    rewrite onResult_frameOfMetric by lra. rewrite Hcl. reflexivity.
Qed.

Lemma classifier_thresholds_witness :
  avgDist (handOfMetric 0.40) = Some 0.40
  /\ classification (frameOfMetric 0.40 1000) = Some OPEN.
Proof.
  pose proof (classifier_thresholds (handOfMetric 0.40) [] 1000 initial
                (mkLandmark 0 0 0) (mkLandmark 0.40 0 0) (mkLandmark 0.40 0 0)
                (mkLandmark 0.40 0 0) (mkLandmark 0.40 0 0)
                eq_refl eq_refl eq_refl eq_refl eq_refl) as H.
  cbv zeta in H. destruct H as (Havg & Hopen & _).
  assert (Hm : meanTipDistance (mkLandmark 0 0 0) (mkLandmark 0.40 0 0)
                 (mkLandmark 0.40 0 0) (mkLandmark 0.40 0 0) (mkLandmark 0.40 0 0)
               = 0.40).
  { unfold meanTipDistance. rewrite tipDistance_on_axis by lra. field. }
  rewrite Hm in Havg, Hopen.
  split; [exact Havg|]. apply Hopen. lra.
Defined.

(** ** C6: short landmark lists *)

(** C6 (as amended). For a hand with fewer than 21 landmarks the metric
    cannot be computed: reading a coordinate of the missing landmark
    throws. The frame is not classified, the call of the handler ends
    with the exception and with the controller (application state and
    dwell timer) as it was, and no further frame is handled. *)
Theorem short_hand_throws :
  forall (hand : list Landmark) (rest : list (list Landmark)) (t : Z)
         (c : Controller) (more : list Frame),
    (length hand < 21)%nat ->
    let f := mkFrame (hand :: rest) t in
    nth_error hand 20 = None
    /\ avgDist hand = None
    /\ classification f = None
    /\ onResult f c = Thrown c
    /\ run (f :: more) c = Thrown c.
Proof.
  intros hand rest t c more Hlen f.
  pose proof (avgDist_short hand Hlen) as Havg.
  assert (Hr : onResult f c = Thrown c).
  { unfold onResult, f; cbn [landmarks]. now rewrite Havg. }
  split; [apply nth_error_None; lia|]. split; [exact Havg|].
  split; [unfold classification, f; cbn [landmarks]; now rewrite Havg|].
  split; [exact Hr|]. cbn [run]. now rewrite Hr.
Qed.

Lemma short_hand_throws_witness :
  (length [mkLandmark 0 0 0; mkLandmark 1 0 0] < 21)%nat
  /\ onResult (mkFrame [[mkLandmark 0 0 0; mkLandmark 1 0 0]] 1000) initial
     = Thrown initial.
Proof.
  assert (H : (length [mkLandmark 0 0 0; mkLandmark 1 0 0] < 21)%nat) by (cbn; lia).
  split; [exact H|].
  exact (proj1 (proj2 (proj2 (proj2
           (short_hand_throws [mkLandmark 0 0 0; mkLandmark 1 0 0] [] 1000
              initial [] H))))).
Defined.

(** C6 (as stated) fails: a hand of nine landmarks (indices 0 to 8, so
    that landmark 12 is missing) is not treated as [UNKNOWN]; the handler
    throws, whereas an [UNKNOWN] frame would have let it run to its
    end. *)
Lemma short_hand_is_not_unknown :
  let hand := repeat (mkLandmark 0 0 0) 9 in
  let f := mkFrame [hand] 1000 in
  (length hand < 21)%nat
  /\ classification f <> Some UNKNOWN
  /\ onResult f initial = Thrown initial
  /\ (forall c, onResult f initial <> Scheduled c).
Proof.
  cbv zeta.
  assert (Havg : avgDist (repeat (mkLandmark 0 0 0) 9) = None) by reflexivity.
  split; [cbn; lia|].
  split; [unfold classification; cbn [landmarks]; rewrite Havg; discriminate|].
  assert (Hr : onResult (mkFrame [repeat (mkLandmark 0 0 0) 9] 1000) initial
               = Thrown initial).
  { unfold onResult; cbn [landmarks]. now rewrite Havg. }
  split; [exact Hr|]. intros c. rewrite Hr. discriminate.
Qed.

(** ** The dwell timer and the application state *)

Lemma Forall_firstn_keeps {A : Type} (P : A -> Prop) (k : nat) (l : list A) :
  Forall P l -> Forall P (firstn k l).
Proof.
  revert l; induction k as [|k IH]; intros l H; cbn; [constructor|].
  destruct H; constructor; auto.
Qed.

Lemma openHand_fresh (t : Z) (c : Controller) :
  openHandStartTime c = 0%Z ->
  openHand t c = mkController t (lastVideoTime c) SCATTERED.
Proof. intros H. unfold openHand. rewrite H. reflexivity. Qed.

Lemma openHand_dwelling (t : Z) (c : Controller) :
  openHandStartTime c <> 0%Z ->
  openHandStartTime (openHand t c) = openHandStartTime c
  /\ ((t - openHandStartTime c > 5000)%Z -> appState (openHand t c) = TEXT_SHAPE)
  /\ ((t - openHandStartTime c <= 5000)%Z ->
      appState (openHand t c)
      = match appState c with TEXT_SHAPE => TEXT_SHAPE | _ => SCATTERED end).
Proof.
  intros H. unfold openHand.
  destruct (Z.eqb_spec (openHandStartTime c) 0); [contradiction|].
  destruct (Z.gtb_spec (t - openHandStartTime c) 5000);
    cbn; repeat split; intros; try reflexivity; lia.
Qed.

(** While the dwell has not exceeded 5000 ms, open-hand frames keep the
    state scattered and the timer running. *)
Lemma run_open_early (fs : list Frame) (c : Controller) :
  openHandStartTime c <> 0%Z ->
  appState c = SCATTERED ->
  Forall (fun f => classification f = Some OPEN
                   /\ (now f - openHandStartTime c <= 5000)%Z) fs ->
  exists c', run fs c = Scheduled c'
             /\ appState c' = SCATTERED
             /\ openHandStartTime c' = openHandStartTime c.
Proof.
  revert c. induction fs as [|f fs IH]; intros c Ht Hs HF.
  - exists c. repeat split; auto.
  - inversion HF as [|? ? [Hc Hn] HF']; subst.
    cbn [run]. rewrite (onResult_open f c Hc).
    destruct (openHand_dwelling (now f) c Ht) as (E1 & _ & E3).
    specialize (E3 Hn). rewrite Hs in E3.
    destruct (IH (openHand (now f) c)) as (c' & R & S' & T').
    + now rewrite E1.
    + exact E3.
    + now rewrite E1.
    + exists c'. rewrite E1 in T'. auto.
Qed.

(** With the timer running, frames that show a hand and are not
    classified as closed keep the text state. *)
Lemma run_text_held (fs : list Frame) (c : Controller) :
  openHandStartTime c <> 0%Z ->
  appState c = TEXT_SHAPE ->
  Forall handStaysOpenish fs ->
  exists c', run fs c = Scheduled c'
             /\ appState c' = TEXT_SHAPE
             /\ openHandStartTime c' = openHandStartTime c.
Proof.
  revert c. induction fs as [|f fs IH]; intros c Ht Hs HF.
  - exists c. repeat split; auto.
  - inversion HF as [|? ? [Hhand [Hc|Hc]] HF']; subst; cbn [run].
    + rewrite (onResult_open f c Hc).
      destruct (openHand_dwelling (now f) c Ht) as (E1 & E2 & E3).
      assert (E : appState (openHand (now f) c) = TEXT_SHAPE).
      { destruct (Z_gt_le_dec (now f - openHandStartTime c) 5000) as [g|l];
          [exact (E2 g) | rewrite (E3 l), Hs; reflexivity]. }
      destruct (IH (openHand (now f) c)) as (c' & R & S' & T');
        [now rewrite E1 | exact E | exact HF' |].
      exists c'. rewrite E1 in T'. auto.
    + destruct (onResult_unknown f c Hc) as [[Hno _]|[_ Hr]]; [contradiction|].
      rewrite Hr. now apply IH.
Qed.

(** ** C2: the dwell gate *)

(** C2. Start with the dwell timer unset and let open-hand frames
    arrive, the first at a (non-zero) time [now f0]. As long as the
    frames are at most 5000 ms after the first one (4999 ms included),
    the state is [SCATTERED] after each of them; the first frame more
    than 5000 ms after [now f0] makes the state [TEXT_SHAPE]; it is
    [TEXT_SHAPE] after each further open-hand frame; and one closed-fist
    frame then makes it [TREE_SHAPE] and unsets the timer. *)
Theorem dwell_gate :
  forall (c0 : Controller) (f0 : Frame) (early : list Frame) (f1 : Frame)
         (late : list Frame) (fc : Frame),
    openHandStartTime c0 = 0%Z ->
    now f0 <> 0%Z ->
    classification f0 = Some OPEN ->
    Forall (fun f => classification f = Some OPEN
                     /\ (now f - now f0 <= 5000)%Z) early ->
    classification f1 = Some OPEN ->
    (now f1 - now f0 > 5000)%Z ->
    Forall (fun f => classification f = Some OPEN) late ->
    classification fc = Some CLOSED ->
    (forall k, exists c,
        run (f0 :: firstn k early) c0 = Scheduled c
        /\ appState c = SCATTERED /\ openHandStartTime c = now f0)
    /\ (forall k, exists c,
          run (f0 :: early ++ f1 :: firstn k late) c0 = Scheduled c
          /\ appState c = TEXT_SHAPE /\ openHandStartTime c = now f0)
    /\ (exists c,
          run (f0 :: early ++ f1 :: late ++ [fc]) c0 = Scheduled c
          /\ appState c = TREE_SHAPE /\ openHandStartTime c = 0%Z).
Proof.
  intros c0 f0 early f1 late fc Hunset Ht0 Hc0 Hearly Hc1 Ht1 Hlate Hcc.
  set (c1 := openHand (now f0) c0).
  assert (Hc1' : c1 = mkController (now f0) (lastVideoTime c0) SCATTERED)
    by now apply openHand_fresh.
  assert (Hstart : forall fs, run (f0 :: fs) c0 = run fs c1).
  { intros fs. cbn [run]. now rewrite (onResult_open f0 c0 Hc0). }
  assert (Tc1 : openHandStartTime c1 = now f0) by now rewrite Hc1'.
  assert (Sc1 : appState c1 = SCATTERED) by now rewrite Hc1'.
  assert (Hrun_app : forall xs ys c c',
             run xs c = Scheduled c' -> run (xs ++ ys) c = run ys c').
  { induction xs as [|x xs IH]; intros ys c c' H; cbn [run app] in *.
    - now injection H as ->.
    - destruct (onResult x c); [now apply IH | discriminate]. }
  assert (Hearly_run : forall fs,
             Forall (fun f => classification f = Some OPEN
                              /\ (now f - now f0 <= 5000)%Z) fs ->
             exists c, run fs c1 = Scheduled c
                       /\ appState c = SCATTERED /\ openHandStartTime c = now f0).
  { intros fs HF.
    destruct (run_open_early fs c1) as (c & R & S' & T').
    - rewrite Tc1; exact Ht0.
    - exact Sc1.
    - now rewrite Tc1.
    - exists c. rewrite Tc1 in T'. auto. }
  destruct (Hearly_run early Hearly) as (c2 & R2 & S2 & T2).
  set (c3 := openHand (now f1) c2).
  assert (Hne2 : openHandStartTime c2 <> 0%Z) by now rewrite T2.
  destruct (openHand_dwelling (now f1) c2 Hne2) as (E1 & E2 & _).
  rewrite T2 in E1, E2. specialize (E2 Ht1). fold c3 in E1, E2.
  assert (Hlate_run : forall fs,
             Forall (fun f => classification f = Some OPEN) fs ->
             exists c, run fs c3 = Scheduled c
                       /\ appState c = TEXT_SHAPE /\ openHandStartTime c = now f0).
  { intros fs HF.
    destruct (run_text_held fs c3) as (c & R & S' & T').
    - rewrite E1; exact Ht0.
    - exact E2.
    - eapply Forall_impl; [|exact HF]. intros f Hf. split; [|now left].
      destruct f as [[|h r] t]; [discriminate|discriminate].
    - exists c. rewrite E1 in T'. auto. }
  assert (Hmid : forall fs, run (f0 :: early ++ f1 :: fs) c0 = run fs c3).
  { intros fs. rewrite Hstart, (Hrun_app early (f1 :: fs) c1 c2 R2).
    cbn [run]. now rewrite (onResult_open f1 c2 Hc1). }
  split; [|split].
  - intros k. rewrite Hstart. apply Hearly_run. now apply Forall_firstn_keeps.
  - intros k. rewrite Hmid. apply Hlate_run. now apply Forall_firstn_keeps.
  - rewrite Hmid.
    destruct (Hlate_run late Hlate) as (c4 & R4 & S4 & T4).
    rewrite (Hrun_app late [fc] c3 c4 R4). cbn [run].
    rewrite (onResult_closed fc c4 Hcc).
    exists (closedFist c4). repeat split; reflexivity.
Qed.

Lemma open_frame (t : Z) : classification (frameOfMetric 0.40 t) = Some OPEN.
Proof.
  rewrite classification_frameOfMetric by lra. f_equal. apply signal_open. lra.
Qed.

Lemma closed_frame (t : Z) : classification (frameOfMetric 0.20 t) = Some CLOSED.
Proof.
  rewrite classification_frameOfMetric by lra. f_equal. apply signal_closed. lra.
Qed.

Lemma dead_band_frame (t : Z) : classification (frameOfMetric 0.30 t) = Some UNKNOWN.
Proof.
  rewrite classification_frameOfMetric by lra. f_equal. apply signal_unknown. lra.
Qed.

Lemma dwell_gate_witness :
  exists c,
    run (frameOfMetric 0.40 1000
         :: [frameOfMetric 0.40 5999]
            ++ frameOfMetric 0.40 6001
               :: [frameOfMetric 0.40 6100] ++ [frameOfMetric 0.20 6200])
        initial = Scheduled c
    /\ appState c = TREE_SHAPE /\ openHandStartTime c = 0%Z.
Proof.
  refine (proj2 (proj2
    (dwell_gate initial (frameOfMetric 0.40 1000) [frameOfMetric 0.40 5999]
       (frameOfMetric 0.40 6001) [frameOfMetric 0.40 6100] (frameOfMetric 0.20 6200)
       eq_refl _ (open_frame 1000) _ (open_frame 6001) _ _ (closed_frame 6200)))).
  - cbn; lia.
  - constructor; [|constructor]. split; [apply open_frame | cbn; lia].
  - cbn; lia.
  - constructor; [apply open_frame | constructor].
Defined.

(** ** C3: leaving the text state *)

(** C3 (as amended). From the text state, a frame classified [UNKNOWN]
    never changes the state, and an open-hand frame keeps it as long as
    the dwell timer is set; so any sequence of frames that show a hand
    and are not classified as closed keeps the text state while the
    timer is set. The state leaves [TEXT_SHAPE] only on a closed-fist
    frame (to [TREE_SHAPE]) or on an open-hand frame that finds the dwell
    timer unset, as a frame without a hand leaves it (to [SCATTERED]). *)
Theorem text_left_by_closed_or_fresh_open :
  forall (c c' : Controller) (f : Frame),
    appState c = TEXT_SHAPE ->
    onResult f c = Scheduled c' ->
    (classification f = Some UNKNOWN -> appState c' = TEXT_SHAPE)
    /\ (classification f = Some OPEN -> openHandStartTime c <> 0%Z ->
        appState c' = TEXT_SHAPE /\ openHandStartTime c' = openHandStartTime c)
    /\ (appState c' <> TEXT_SHAPE ->
        (classification f = Some CLOSED /\ appState c' = TREE_SHAPE)
        \/ (classification f = Some OPEN /\ openHandStartTime c = 0%Z
            /\ appState c' = SCATTERED))
    /\ (openHandStartTime c <> 0%Z ->
        forall fs, Forall handStaysOpenish fs ->
          exists c'', run fs c = Scheduled c''
                      /\ appState c'' = TEXT_SHAPE
                      /\ openHandStartTime c'' = openHandStartTime c).
Proof.
  intros c c' f Hs Hr.
  assert (Hopen : classification f = Some OPEN -> openHandStartTime c <> 0%Z ->
                  appState c' = TEXT_SHAPE /\ openHandStartTime c' = openHandStartTime c).
  { intros Hc Ht. rewrite (onResult_open f c Hc) in Hr. injection Hr as <-.
    destruct (openHand_dwelling (now f) c Ht) as (E1 & E2 & E3).
    split; [|exact E1].
    destruct (Z_gt_le_dec (now f - openHandStartTime c) 5000) as [g|l];
      [exact (E2 g) | rewrite (E3 l), Hs; reflexivity]. }
  assert (Hunk : classification f = Some UNKNOWN -> appState c' = TEXT_SHAPE).
  { intros Hc. destruct (onResult_unknown f c Hc) as [[_ E]|[_ E]];
      rewrite E in Hr; injection Hr as <-; exact Hs. }
  split; [exact Hunk|]. split; [exact Hopen|]. split.
  - intros Hleft.
    destruct (classification f) as [[| |]|] eqn:Hc.
    + right. destruct (Z.eq_dec (openHandStartTime c) 0) as [e|ne].
      * split; [reflexivity|]. split; [exact e|].
        rewrite (onResult_open f c Hc) in Hr. injection Hr as <-.
        now rewrite (openHand_fresh (now f) c e).
      * exfalso. apply Hleft. now apply Hopen.
    + left. split; [reflexivity|].
      rewrite (onResult_closed f c Hc) in Hr. injection Hr as <-. reflexivity.
    + exfalso. apply Hleft. now apply Hunk.
    + exfalso. destruct f as [[|hand rest] t]; unfold classification, onResult in *;
        cbn [landmarks] in *; [discriminate|].
      destruct (avgDist hand); cbn in Hc; discriminate.
  - intros Ht fs HF. now apply run_text_held.
Qed.

Lemma text_left_by_closed_or_fresh_open_witness :
  appState (mkController 1000 (-1) TEXT_SHAPE) = TEXT_SHAPE
  /\ onResult (frameOfMetric 0.40 7000) (mkController 1000 (-1) TEXT_SHAPE)
     = Scheduled (mkController 1000 (-1) TEXT_SHAPE)
  /\ exists c'',
       run [frameOfMetric 0.40 7100; frameOfMetric 0.30 7200]
           (mkController 1000 (-1) TEXT_SHAPE) = Scheduled c''
       /\ appState c'' = TEXT_SHAPE /\ openHandStartTime c'' = 1000%Z.
Proof.
  assert (Hr : onResult (frameOfMetric 0.40 7000) (mkController 1000 (-1) TEXT_SHAPE)
               = Scheduled (mkController 1000 (-1) TEXT_SHAPE)).
  { rewrite (onResult_open _ _ (open_frame 7000)). reflexivity. }
  split; [reflexivity|]. split; [exact Hr|].
  refine (proj2 (proj2 (proj2
    (text_left_by_closed_or_fresh_open (mkController 1000 (-1) TEXT_SHAPE) _
       (frameOfMetric 0.40 7000) eq_refl Hr))) _ _ _).
  - cbn; lia.
  - constructor; [|constructor; [|constructor]].
    + split; [discriminate | left; apply open_frame].
    + split; [discriminate | right; apply dead_band_frame].
Defined.

(** C3 (as stated) fails. After 6000 ms of open hand the state is
    [TEXT_SHAPE]; a frame without a hand (classified [UNKNOWN]) followed
    by an open-hand frame (classified [OPEN]) then takes the state to
    [SCATTERED], with no closed-fist frame in between. *)
Lemma text_lost_after_hand_leaves :
  exists c c',
    run [frameOfMetric 0.40 1000; frameOfMetric 0.40 7000] initial = Scheduled c
    /\ Reachable c
    /\ appState c = TEXT_SHAPE
    /\ Forall (fun f => classification f = Some OPEN
                        \/ classification f = Some UNKNOWN)
              [noHandFrame 7100; frameOfMetric 0.40 7200]
    /\ run [noHandFrame 7100; frameOfMetric 0.40 7200] c = Scheduled c'
    /\ appState c' = SCATTERED.
Proof.
  assert (R1 : run [frameOfMetric 0.40 1000; frameOfMetric 0.40 7000] initial
               = Scheduled (mkController 1000 (-1) TEXT_SHAPE)).
  { cbn [run]. rewrite (onResult_open _ _ (open_frame 1000)).
    rewrite (onResult_open _ _ (open_frame 7000)). reflexivity. }
  exists (mkController 1000 (-1) TEXT_SHAPE), (mkController 7200 (-1) SCATTERED).
  split; [exact R1|]. split; [eexists; exact R1|]. split; [reflexivity|]. split.
  - constructor; [right; reflexivity|].
    constructor; [left; apply open_frame | constructor].
  - split; [|reflexivity]. cbn [run].
    change (onResult (noHandFrame 7100) (mkController 1000 (-1) TEXT_SHAPE))
      with (Scheduled (mkController 0 (-1) TEXT_SHAPE)).
    cbv iota beta.
    rewrite (onResult_open _ _ (open_frame 7200)). reflexivity.
Qed.

(** ** C4: frames classified [UNKNOWN] *)

(** C4 (as amended). A frame classified [UNKNOWN] never changes the
    application state. When no hand is detected the dwell timer is
    unset; when a hand is detected with its metric in the dead band, the
    controller, dwell timer included, is left exactly as it was. *)
Theorem unknown_frame_holds_state :
  forall (f : Frame) (c : Controller),
    classification f = Some UNKNOWN ->
    exists c',
      onResult f c = Scheduled c'
      /\ appState c' = appState c
      /\ (landmarks f = [] -> openHandStartTime c' = 0%Z)
      /\ (landmarks f <> [] -> c' = c).
Proof.
  intros f c Hc.
  destruct (onResult_unknown f c Hc) as [[Hno E]|[Hhand E]].
  - exists (noHand c). split; [exact E|]. split; [reflexivity|].
    split; [reflexivity | contradiction].
  - exists c. split; [exact E|]. split; [reflexivity|].
    split; [contradiction | reflexivity].
Qed.

Lemma unknown_frame_holds_state_witness :
  classification (noHandFrame 7100) = Some UNKNOWN
  /\ exists c',
       onResult (noHandFrame 7100) (mkController 1000 (-1) TEXT_SHAPE) = Scheduled c'
       /\ appState c' = TEXT_SHAPE.
Proof.
  split; [reflexivity|].
  destruct (unknown_frame_holds_state (noHandFrame 7100)
              (mkController 1000 (-1) TEXT_SHAPE) eq_refl) as (c' & E & S' & _).
  exists c'. split; [exact E | exact S'].
Defined.

(** C4 (as stated) fails in the dead band: after an open-hand frame at
    time 1000 the timer is set, and a frame whose metric is 0.30
    (classified [UNKNOWN]) leaves it set at 1000. *)
Lemma dead_band_keeps_timer :
  exists c c',
    run [frameOfMetric 0.40 1000] initial = Scheduled c
    /\ classification (frameOfMetric 0.30 2000) = Some UNKNOWN
    /\ onResult (frameOfMetric 0.30 2000) c = Scheduled c'
    /\ openHandStartTime c' = 1000%Z
    /\ openHandStartTime c' <> 0%Z.
Proof.
  exists (mkController 1000 (-1) SCATTERED), (mkController 1000 (-1) SCATTERED).
  split.
  - cbn [run]. rewrite (onResult_open _ _ (open_frame 1000)). reflexivity.
  - split; [apply dead_band_frame|]. split.
    + destruct (onResult_unknown (frameOfMetric 0.30 2000)
                  (mkController 1000 (-1) SCATTERED) (dead_band_frame 2000))
        as [[Hno _]|[_ E]]; [discriminate | exact E].
    + split; [reflexivity | cbn; lia].
Qed.

(** * Further properties *)

(** ** Initialisation: the particles as a function of the draws *)

Lemma newParticle_draws (CONFIG : Config) (draw : nat -> R) (i n : nat) :
  snd (newParticle CONFIG draw i n) = (n + 12)%nat.
Proof. exact (proj1 (newParticle_spec CONFIG draw i n)). Qed.

Lemma pushParticles_unfold (CONFIG : Config) (draw : nat -> R) :
  forall count i data n,
    pushParticles CONFIG draw count i data n
    = (data ++ map (fun k => fst (newParticle CONFIG draw (i + k) (n + 12 * k)%nat))
                   (seq 0 count),
       (n + 12 * count)%nat).
Proof.
  induction count as [|c IH]; intros i data n; cbn [pushParticles].
  - unfold ret. cbn [seq map]. rewrite app_nil_r. f_equal. lia.
  - unfold bind.
    pose proof (newParticle_draws CONFIG draw i n) as Hn.
    destruct (newParticle CONFIG draw i n) as [p n'] eqn:E. cbn [snd] in Hn. subst n'.
    rewrite IH. f_equal; [|lia].
    rewrite <- app_assoc. f_equal. cbn [app seq map].
    replace (i + 0)%nat with i by lia. replace (n + 12 * 0)%nat with n by lia.
    rewrite E. cbn [fst]. f_equal.
    rewrite <- seq_shift, map_map. apply map_ext. intros k.
    replace (S i + k)%nat with (i + S k)%nat by lia.
    replace (n + 12 + 12 * k)%nat with (n + 12 * S k)%nat by lia.
    reflexivity.
Qed.

Lemma initParticles_unfold (CONFIG : Config) (draw : nat -> R) :
  initParticles CONFIG draw
  = map (fun k => fst (newParticle CONFIG draw k (12 * k)%nat))
        (seq 0 (particleCount CONFIG)).
Proof. unfold initParticles. rewrite pushParticles_unfold. reflexivity. Qed.

Lemma initParticles_all (CONFIG : Config) (draw : nat -> R)
    (P : ParticleData -> Prop) :
  (forall i n, P (fst (newParticle CONFIG draw i n))) ->
  forall p, In p (initParticles CONFIG draw) -> P p.
Proof.
  intros H p Hp. rewrite initParticles_unfold in Hp.
  apply in_map_iff in Hp. destruct Hp as (k & <- & _). apply H.
Qed.

(** X1. The initialisation is a map over the particle indices: particle
    [k] is built from the twelve draws [12 k .. 12 k + 11] and from
    nothing else, its id is its index, and the loop makes
    [12 * particleCount] draws in all. *)
Theorem init_by_index :
  forall (CONFIG : Config) (draw : nat -> R),
    initParticles CONFIG draw
    = map (fun k => fst (newParticle CONFIG draw k (12 * k)%nat))
          (seq 0 (particleCount CONFIG))
    /\ map id (initParticles CONFIG draw) = seq 0 (particleCount CONFIG)
    /\ snd (pushParticles CONFIG draw (particleCount CONFIG) 0 [] 0%nat)
       = (12 * particleCount CONFIG)%nat
    /\ (forall draw' k,
          (forall j, (j < 12)%nat -> draw' (12 * k + j)%nat = draw (12 * k + j)%nat) ->
          nth_error (initParticles CONFIG draw') k
          = nth_error (initParticles CONFIG draw) k).
Proof.
  intros CONFIG draw.
  split; [apply initParticles_unfold|]. split; [|split].
  - rewrite initParticles_unfold, map_map.
    rewrite <- (map_id (seq 0 (particleCount CONFIG))) at 2.
    apply map_ext. intros k.
    exact (proj1 (proj2 (newParticle_spec CONFIG draw k (12 * k)%nat))).
  - rewrite pushParticles_unfold. reflexivity.
  - intros draw' k Hsame.
    rewrite !initParticles_unfold, !nth_error_map.
    destruct (nth_error (seq 0 (particleCount CONFIG)) k) as [j|] eqn:E;
      [|reflexivity].
    cbn [option_map]. f_equal.
    assert (j = k).
    { apply nth_error_split in E. destruct E as (l1 & l2 & E & Hl).
      assert (Hn : nth k (seq 0 (particleCount CONFIG)) 0%nat = j)
        by (rewrite E, <- Hl, nth_middle; reflexivity).
      rewrite seq_nth in Hn; [lia|].
      assert (length (seq 0 (particleCount CONFIG)) = length (l1 ++ j :: l2))
        by now rewrite E.
      rewrite length_seq, length_app in H. cbn in H. lia. }
    subst j.
    cbv [newParticle bind random ret]. cbn [fst snd].
    pose proof (Hsame 0%nat ltac:(lia)) as H0.
    pose proof (Hsame 1%nat ltac:(lia)) as H1.
    pose proof (Hsame 2%nat ltac:(lia)) as H2.
    pose proof (Hsame 3%nat ltac:(lia)) as H3.
    pose proof (Hsame 4%nat ltac:(lia)) as H4.
    pose proof (Hsame 5%nat ltac:(lia)) as H5.
    pose proof (Hsame 6%nat ltac:(lia)) as H6.
    pose proof (Hsame 7%nat ltac:(lia)) as H7.
    pose proof (Hsame 8%nat ltac:(lia)) as H8.
    pose proof (Hsame 9%nat ltac:(lia)) as H9.
    pose proof (Hsame 10%nat ltac:(lia)) as H10.
    pose proof (Hsame 11%nat ltac:(lia)) as H11.
    replace (12 * k + 0)%nat with (12 * k)%nat in H0 by lia.
    replace (12 * k + 1)%nat with (S (12 * k)) in H1 by lia.
    replace (12 * k + 2)%nat with (S (S (12 * k))) in H2 by lia.
    replace (12 * k + 3)%nat with (S (S (S (12 * k)))) in H3 by lia.
    replace (12 * k + 4)%nat with (S (S (S (S (12 * k))))) in H4 by lia.
    replace (12 * k + 5)%nat with (S (S (S (S (S (12 * k)))))) in H5 by lia.
    replace (12 * k + 6)%nat with (S (S (S (S (S (S (12 * k))))))) in H6 by lia.
    replace (12 * k + 7)%nat with (S (S (S (S (S (S (S (12 * k)))))))) in H7 by lia.
    replace (12 * k + 8)%nat with (S (S (S (S (S (S (S (S (12 * k))))))))) in H8 by lia.
    replace (12 * k + 9)%nat
      with (S (S (S (S (S (S (S (S (S (12 * k)))))))))) in H9 by lia.
    replace (12 * k + 10)%nat
      with (S (S (S (S (S (S (S (S (S (S (12 * k))))))))))) in H10 by lia.
    replace (12 * k + 11)%nat
      with (S (S (S (S (S (S (S (S (S (S (S (12 * k)))))))))))) in H11 by lia.
    clear Hsame. generalize dependent (12 * k)%nat. intros m H0 H1 H2 H3 H4 H5 H6 H7 H8 H9 H10 H11.
    rewrite H0, H1, H2, H3, H4, H5, H6, H7, H8, H9, H10, H11. reflexivity.
Qed.

Lemma seq_nth_error (c k j : nat) :
  nth_error (seq 0 c) k = Some j -> j = k /\ (k < c)%nat.
Proof.
  intros E.
  assert (Hk : (k < length (seq 0 c))%nat)
    by (apply nth_error_Some; rewrite E; discriminate).
  rewrite length_seq in Hk. split; [|exact Hk].
  apply (nth_error_nth _ _ 0%nat) in E. rewrite seq_nth in E by exact Hk. lia.
Qed.

Lemma initParticles_nth (CONFIG : Config) (draw : nat -> R) (k : nat)
    (p : ParticleData) :
  nth_error (initParticles CONFIG draw) k = Some p ->
  (k < particleCount CONFIG)%nat
  /\ p = fst (newParticle CONFIG draw k (12 * k)%nat).
Proof.
  rewrite initParticles_unfold, nth_error_map.
  destruct (nth_error (seq 0 (particleCount CONFIG)) k) as [j|] eqn:E;
    cbn [option_map]; [|discriminate].
  apply seq_nth_error in E. destruct E as [-> Hk].
  intros H; injection H as <-. split; [exact Hk | reflexivity].
Qed.

Lemma newParticle_scatter (CONFIG : Config) (draw : nat -> R) (i n : nat) :
  let p := fst (newParticle CONFIG draw i n) in
  let theta := 2 * PI * draw (n + 1)%nat in
  let phi := acos (2 * draw (n + 2)%nat - 1) in
  let r := scatterRadius CONFIG * cbrt (draw (n + 3)%nat) in
  scatterPosition p
  = mkVector3 (r * sin phi * cos theta) (r * sin phi * sin theta) (r * cos phi).
Proof.
  cbv [newParticle bind random ret]. cbn [fst snd scatterPosition].
  replace (n + 1)%nat with (S n) by lia.
  replace (n + 2)%nat with (S (S n)) by lia.
  replace (n + 3)%nat with (S (S (S n))) by lia.
  reflexivity.
Qed.

Lemma newParticle_tree (CONFIG : Config) (draw : nat -> R) (i n : nat) :
  let p := fst (newParticle CONFIG draw i n) in
  let hPercent := draw (n + 4)%nat in
  let angle := INR i * 0.5 + draw (n + 5)%nat * 0.5 in
  let finalRadius :=
    Rmax 0 (treeBaseRadius CONFIG * (1 - hPercent) + (draw (n + 6)%nat - 0.5) * 0.5) in
  treePosition p
  = mkVector3 (cos angle * finalRadius) ((hPercent - 0.5) * treeHeight CONFIG)
              (sin angle * finalRadius).
Proof.
  cbv [newParticle bind random ret]. cbn [fst snd treePosition].
  replace (n + 4)%nat with (S (S (S (S n)))) by lia.
  replace (n + 5)%nat with (S (S (S (S (S n))))) by lia.
  replace (n + 6)%nat with (S (S (S (S (S (S n)))))) by lia.
  reflexivity.
Qed.

Lemma newParticle_look (CONFIG : Config) (draw : nat -> R) (i n : nat) :
  let p := fst (newParticle CONFIG draw i n) in
  rotationSpeed p
  = mkVector3 (draw (n + 9)%nat) (draw (n + 10)%nat) (draw (n + 11)%nat)
  /\ (type p = ornament -> color p = gold \/ color p = goldHot)
  /\ (type p = needle -> color p = needleLight \/ color p = needleDark).
Proof.
  cbv [newParticle bind random ret]. cbn [fst snd rotationSpeed type color].
  replace (n + 9)%nat with (S (S (S (S (S (S (S (S (S n))))))))) by lia.
  replace (n + 10)%nat with (S (S (S (S (S (S (S (S (S (S n)))))))))) by lia.
  replace (n + 11)%nat with (S (S (S (S (S (S (S (S (S (S (S n))))))))))) by lia.
  split; [reflexivity|].
  destruct (Rgt_dec (draw n) 0.85);
    destruct (Rgt_dec (draw (S (S (S (S (S (S (S n)))))))) 0.5);
    split; intros H; try discriminate; auto.
Qed.

(** [cbrt] is a cube root on the non-negative numbers. *)
Lemma cbrt_nonneg (a : R) : 0 <= a -> 0 <= cbrt a.
Proof.
  intros Ha. unfold cbrt.
  destruct (Rlt_dec 0 a); [left; apply exp_pos|].
  destruct (Rlt_dec a 0); [lra | lra].
Qed.

Lemma cbrt_cube (a : R) : 0 <= a -> cbrt a ^ 3 = a.
Proof.
  intros Ha. unfold cbrt.
  destruct (Rlt_dec 0 a) as [Hpos|Hn].
  - rewrite <- Rpower_pow by apply exp_pos.
    rewrite Rpower_mult.
    replace (/ 3 * INR 3) with 1 by (cbn; field).
    now apply Rpower_1.
  - destruct (Rlt_dec a 0); [lra|].
    assert (a = 0) by lra. subst a. ring.
Qed.

Lemma cbrt_below_one (a : R) : 0 <= a < 1 -> 0 <= cbrt a < 1.
Proof.
  intros [Ha Hlt].
  pose proof (cbrt_nonneg a Ha) as Hc. pose proof (cbrt_cube a Ha) as H3.
  split; [exact Hc|].
  destruct (Rlt_dec (cbrt a) 1) as [|Hge]; [assumption|exfalso].
  assert (1 <= cbrt a) by lra.
  assert (1 <= cbrt a ^ 3) by (cbn; nra). lra.
Qed.

Lemma sphere_norm (r sp cp st ct : R) :
  st * st + ct * ct = 1 -> sp * sp + cp * cp = 1 ->
  (r * sp * ct) * (r * sp * ct) + (r * sp * st) * (r * sp * st)
  + (r * cp) * (r * cp) = r * r.
Proof.
  intros H1 H2.
  transitivity (r * r * (sp * sp * (st * st + ct * ct) + cp * cp)); [ring|].
  rewrite H1, Rmult_1_r, H2. ring.
Qed.

Lemma sin_cos_one (a : R) : sin a * sin a + cos a * cos a = 1.
Proof. exact (sin2_cos2 a). Qed.

(** ** X2, X3: where the particles start *)

Lemma set_currentPosition_same (p : ParticleData) (v : Vector3) :
  v = currentPosition p -> set_currentPosition p v = p.
Proof. intros ->. destruct p; reflexivity. Qed.

(** X2. Every particle starts at its scatter position, and its text
    position is the scatter position too until the text is loaded. So
    before the text is loaded, frames in the scattered state and in the
    text state move nothing: the stored particles after any number of
    such frames are the initial ones. *)
Theorem init_rests_until_tree :
  forall (CONFIG : Config) (draw : nat -> R) (mouse : Vector3)
         (inputs : list FrameInput),
    Forall (fun p => currentPosition p = scatterPosition p
                     /\ textPosition p = scatterPosition p)
           (initParticles CONFIG draw)
    /\ (Forall (fun i => frameState i <> TREE_SHAPE) inputs ->
        particles (animate inputs (mkScene (initParticles CONFIG draw) mouse []))
        = initParticles CONFIG draw).
Proof.
  intros CONFIG draw mouse inputs.
  assert (HF : Forall (fun p => currentPosition p = scatterPosition p
                                /\ textPosition p = scatterPosition p)
                      (initParticles CONFIG draw)).
  { apply Forall_forall. apply initParticles_all. intros i n.
    destruct (newParticle_spec CONFIG draw i n) as (_ & _ & H1 & H2 & _).
    split; assumption. }
  split; [exact HF|].
  intros Hin.
  generalize dependent (initParticles CONFIG draw).
  intros ps Hrest. generalize (@nil Transform) as ms. revert mouse.
  induction Hin as [|i rest Hst _ IH]; intros mouse ms; cbn [animate]; [reflexivity|].
  unfold useFrame.
  assert (Hsame : map fst (map (updateParticle (frameState i) (frameHit i)
                                  (frameDelta i) (frameTime i)) ps) = ps).
  { rewrite map_map. rewrite <- (map_id ps) at 2.
    apply map_ext_in. intros p Hp.
    rewrite Forall_forall in Hrest. destruct (Hrest p Hp) as [Hc Hx].
    unfold updateParticle. cbv zeta. cbn [fst].
    apply set_currentPosition_same.
    assert (Ht : target (frameState i) p = currentPosition p).
    { destruct (frameState i); cbn [target]; congruence. }
    rewrite Ht. apply Vector3_eq; cbn; ring. }
  destruct (meshMounted i); cbv zeta; cbn [particles mouse3D].
  - rewrite Hsame. apply IH.
  - apply IH.
Qed.

(** X3. Scatter positions fill the ball of radius [scatterRadius]: the
    distance of particle [k]'s scatter position to the origin is
    [scatterRadius] times the cube root of its fourth draw, so it is
    below [scatterRadius] and its cube is [scatterRadius ^ 3] times that
    draw (the volume inside is uniform in the draw). *)
Theorem scatter_in_ball :
  forall (CONFIG : Config) (draw : nat -> R) (k : nat) (p : ParticleData),
    0 < scatterRadius CONFIG ->
    (forall j, 0 <= draw j < 1) ->
    nth_error (initParticles CONFIG draw) k = Some p ->
    let d := distanceTo (scatterPosition p) origin in
    d = scatterRadius CONFIG * cbrt (draw (12 * k + 3)%nat)
    /\ 0 <= d < scatterRadius CONFIG
    /\ d ^ 3 = scatterRadius CONFIG ^ 3 * draw (12 * k + 3)%nat.
Proof.
  intros CONFIG draw k p HR Hdraw Hp d.
  apply initParticles_nth in Hp. destruct Hp as [_ ->].
  pose proof (newParticle_scatter CONFIG draw k (12 * k)%nat) as Hs.
  cbv zeta in Hs.
  set (c := cbrt (draw (12 * k + 3)%nat)) in *.
  assert (Hc : 0 <= c < 1) by (apply cbrt_below_one, Hdraw).
  assert (Hcube : c ^ 3 = draw (12 * k + 3)%nat) by (apply cbrt_cube, Hdraw).
  assert (Hd : d = scatterRadius CONFIG * c).
  { unfold d, distanceTo, distanceToSquared, origin. rewrite Hs. cbn [x y z].
    rewrite !Rminus_0_r.
    rewrite sphere_norm by apply sin_cos_one.
    apply sqrt_square. nra. }
  split; [exact Hd|]. rewrite Hd. split; [nra|].
  rewrite <- Hcube. ring.
Qed.

Lemma scatter_in_ball_witness :
  0 < scatterRadius exampleConfig
  /\ 0 <= distanceTo (scatterPosition
                        (fst (newParticle exampleConfig exampleDraw 0 0%nat))) origin
     < scatterRadius exampleConfig.
Proof.
  assert (HR : 0 < scatterRadius exampleConfig) by (cbn; lra).
  split; [exact HR|].
  refine (proj1 (proj2 (scatter_in_ball exampleConfig exampleDraw 0 _ HR
                          exampleDraw_range _))).
  rewrite initParticles_unfold. reflexivity.
Defined.

(** ** X4: tree positions lie on the cone *)

Lemma circle_norm (a r : R) :
  0 <= r -> sqrt ((cos a * r) * (cos a * r) + (sin a * r) * (sin a * r)) = r.
Proof.
  intros Hr.
  replace ((cos a * r) * (cos a * r) + (sin a * r) * (sin a * r))
    with (r * r * (sin a * sin a + cos a * cos a)) by ring.
  rewrite sin_cos_one, Rmult_1_r. now apply sqrt_square.
Qed.

(** X4. With a non-negative base radius and a positive height, the tree
    position of particle [k] is at height [(h - 0.5) * treeHeight] for
    its fifth draw [h], hence within half the height of the origin, and
    its distance to the vertical axis differs by at most 0.25 from the
    cone's radius [treeBaseRadius * (1 - h)] at that height; it is never
    negative and at most [treeBaseRadius + 0.25]. *)
Theorem tree_on_cone :
  forall (CONFIG : Config) (draw : nat -> R) (k : nat) (p : ParticleData),
    0 <= treeBaseRadius CONFIG ->
    0 < treeHeight CONFIG ->
    (forall j, 0 <= draw j < 1) ->
    nth_error (initParticles CONFIG draw) k = Some p ->
    let h := draw (12 * k + 4)%nat in
    let cone := treeBaseRadius CONFIG * (1 - h) in
    y (treePosition p) = (h - 0.5) * treeHeight CONFIG
    /\ - (treeHeight CONFIG / 2) <= y (treePosition p) < treeHeight CONFIG / 2
    /\ cone = treeBaseRadius CONFIG * (0.5 - y (treePosition p) / treeHeight CONFIG)
    /\ cone - 0.25 <= axisDistance (treePosition p) <= cone + 0.25
    /\ 0 <= axisDistance (treePosition p) <= treeBaseRadius CONFIG + 0.25.
Proof.
  intros CONFIG draw k p HB HH Hdraw Hp h cone.
  apply initParticles_nth in Hp. destruct Hp as [_ ->].
  pose proof (newParticle_tree CONFIG draw k (12 * k)%nat) as Ht.
  cbv zeta in Ht. fold h in Ht. fold cone in Ht.
  pose proof (Hdraw (12 * k + 4)%nat) as Hh. fold h in Hh.
  pose proof (Hdraw (12 * k + 6)%nat) as Hn.
  set (noise := (draw (12 * k + 6)%nat - 0.5) * 0.5) in *.
  set (fr := Rmax 0 (cone + noise)) in *.
  assert (Hcone : 0 <= cone) by (unfold cone; nra).
  assert (Hfr : 0 <= fr /\ cone - 0.25 <= fr <= cone + 0.25).
  { unfold fr, Rmax. destruct (Rle_dec 0 (cone + noise)); unfold noise in *; lra. }
  assert (Haxis : axisDistance (treePosition
                    (fst (newParticle CONFIG draw k (12 * k)%nat))) = fr).
  { unfold axisDistance. rewrite Ht. cbn [x z]. apply circle_norm. tauto. }
  rewrite Haxis, Ht. cbn [y].
  split; [reflexivity|]. split; [nra|]. split.
  - assert (E : (h - 0.5) * treeHeight CONFIG / treeHeight CONFIG = h - 0.5).
    { unfold Rdiv. rewrite Rmult_assoc, Rinv_r by lra. ring. }
    rewrite E. unfold cone. f_equal. lra.
  - split; [tauto|]. split; [tauto|]. unfold cone in *. nra.
Qed.

Lemma tree_on_cone_witness :
  0 <= treeBaseRadius exampleConfig /\ 0 < treeHeight exampleConfig
  /\ 0 <= axisDistance (treePosition
                          (fst (newParticle exampleConfig exampleDraw 1 12%nat)))
     <= treeBaseRadius exampleConfig + 0.25.
Proof.
  assert (HB : 0 <= treeBaseRadius exampleConfig) by (cbn; lra).
  assert (HH : 0 < treeHeight exampleConfig) by (cbn; lra).
  split; [exact HB|]. split; [exact HH|].
  refine (proj2 (proj2 (proj2 (proj2
            (tree_on_cone exampleConfig exampleDraw 1 _ HB HH
               exampleDraw_range _))))).
  rewrite initParticles_unfold. reflexivity.
Defined.

(** ** X5: colours and spin rates *)

(** X5. Ornaments are gold or hot gold, needles light or dark green, and
    the three spin rates of every particle are draws, so they lie in
    [[0, 1)]. *)
Theorem init_colours_and_spin :
  forall (CONFIG : Config) (draw : nat -> R),
    (forall j, 0 <= draw j < 1) ->
    Forall (fun p =>
              (type p = ornament -> color p = gold \/ color p = goldHot)
              /\ (type p = needle -> color p = needleLight \/ color p = needleDark)
              /\ 0 <= x (rotationSpeed p) < 1
              /\ 0 <= y (rotationSpeed p) < 1
              /\ 0 <= z (rotationSpeed p) < 1)
           (initParticles CONFIG draw).
Proof.
  intros CONFIG draw Hdraw.
  apply Forall_forall. apply initParticles_all. intros i n.
  destruct (newParticle_look CONFIG draw i n) as (Hr & Ho & Hn).
  rewrite Hr. cbn [x y z].
  split; [exact Ho|]. split; [exact Hn|]. repeat split; apply Hdraw.
Qed.

Lemma init_colours_and_spin_witness :
  Forall (fun p => 0 <= x (rotationSpeed p) < 1)
         (initParticles exampleConfig exampleDraw).
Proof.
  eapply Forall_impl;
    [|exact (init_colours_and_spin exampleConfig exampleDraw exampleDraw_range)].
  intros p H. exact (proj1 (proj2 (proj2 H))).
Defined.

(** ** X6: what no frame changes *)

Lemma useFrame_static mesh appState hit delta time s :
  map staticFields (particles (useFrame mesh appState hit delta time s))
  = map staticFields (particles s).
Proof.
  unfold useFrame. destruct mesh; [|reflexivity].
  cbv zeta. cbn [particles]. rewrite !map_map. apply map_ext. reflexivity.
Qed.

Lemma useFrame_ignores_hit mesh appState hit delta time s :
  particles (useFrame mesh appState hit delta time s)
  = particles (useFrame mesh appState None delta time s).
Proof.
  unfold useFrame. destruct mesh; [|reflexivity].
  cbv zeta. cbn [particles]. rewrite !map_map. apply map_ext. reflexivity.
Qed.

Lemma animate_particles_only inputs s s' :
  particles s = particles s' ->
  particles (animate inputs s) = particles (animate inputs s').
Proof.
  revert s s'. induction inputs as [|i rest IH]; intros s s' H; cbn [animate];
    [exact H|].
  apply IH. unfold useFrame. destruct (meshMounted i); [|exact H].
  cbv zeta. cbn [particles]. now rewrite H.
Qed.

(** X6. Over any sequence of frames, whatever the application state,
    the pointer and the mounting of the mesh do from frame to frame: the
    number of particles and every field of every particle other than
    [currentPosition] stay as they are; the stored particles are the same
    as if the pointer had never hit the plane; [mouse3D] moves only on a
    frame that has a hit while the mesh is mounted; and after a frame
    with the mesh mounted there is one transform per particle. *)
Theorem frames_keep_particles :
  forall (inputs : list FrameInput) (s : Scene),
    map staticFields (particles (animate inputs s)) = map staticFields (particles s)
    /\ List.length (particles (animate inputs s)) = List.length (particles s)
    /\ particles (animate inputs s)
       = particles (animate
           (map (fun i => mkFrameInput (meshMounted i) (frameState i) None
                            (frameDelta i) (frameTime i)) inputs) s)
    /\ (Forall (fun i => meshMounted i = false \/ frameHit i = None) inputs ->
        mouse3D (animate inputs s) = mouse3D s)
    /\ (forall i, meshMounted i = true ->
          List.length (matrices (animate (inputs ++ [i]) s))
          = List.length (particles s)).
Proof.
  intros inputs s.
  assert (Hstatic : forall inputs s,
             map staticFields (particles (animate inputs s))
             = map staticFields (particles s)).
  { clear. induction inputs as [|i rest IH]; intros s; cbn [animate]; [reflexivity|].
    now rewrite IH, useFrame_static. }
  assert (Hlen : forall inputs s,
             List.length (particles (animate inputs s)) = List.length (particles s)).
  { clear - Hstatic. intros inputs s.
    rewrite <- (length_map staticFields), Hstatic. apply length_map. }
  split; [apply Hstatic|]. split; [apply Hlen|]. split; [|split].
  - revert s. induction inputs as [|i rest IH]; intros s; cbn [animate map];
      [reflexivity|].
    cbn [meshMounted frameState frameHit frameDelta frameTime].
    rewrite IH. apply animate_particles_only. apply useFrame_ignores_hit.
  - intros HF. revert s. induction HF as [|i rest Hi _ IH]; intros s; cbn [animate];
      [reflexivity|].
    rewrite IH. unfold useFrame.
    destruct Hi as [-> | ->]; [reflexivity|].
    destruct (meshMounted i); reflexivity.
  - intros i Hi.
    assert (Happ : forall xs s, animate (xs ++ [i]) s
                     = useFrame true (frameState i) (frameHit i) (frameDelta i)
                         (frameTime i) (animate xs s)).
    { clear - Hi. induction xs as [|a xs IH]; intros s; cbn [animate app].
      - now rewrite Hi.
      - apply IH. }
    rewrite Happ. unfold useFrame. cbv zeta. cbn [matrices].
    rewrite !length_map. apply Hlen.
Qed.

(** ** X7, X8: the rendered scale and the hover offset *)

(** X7. For a particle with a non-negative base scale, the rendered
    scale of a needle is its base scale (times 1.2 in the text state);
    that of an ornament breathes between 0.8 and 1.2 times its base scale
    (times 1.2 in the text state). In every state it lies between 0.8 and
    1.44 times the base scale. *)
Theorem rendered_scale_bounds :
  forall (appState : AppState) (hit : option Vector3) (delta time : R)
         (particle : ParticleData),
    0 <= scale particle ->
    let rendered := scalar (snd (updateParticle appState hit delta time particle)) in
    let boost := if isText appState then 1.2 else 1 in
    (type particle = needle -> rendered = scale particle * boost)
    /\ (type particle = ornament ->
        0.8 * scale particle * boost <= rendered <= 1.2 * scale particle * boost)
    /\ 0.8 * scale particle <= rendered <= 1.44 * scale particle.
Proof.
  intros appState hit delta time particle Hs rendered boost.
  unfold rendered, updateParticle. cbv zeta. cbn [snd scalar].
  unfold scaleMult. cbv zeta. unfold boost.
  pose proof (SIN_bound (time * 3 + INR (id particle))) as [Hlo Hhi].
  set (w := sin (time * 3 + INR (id particle))) in *.
  set (s := scale particle) in *.
  assert (H1 : 0 <= s * w + s) by nra.
  assert (H2 : 0 <= s - s * w) by nra.
  destruct (type particle); destruct (isText appState);
    (split; [intros H; try discriminate; try ring|]);
    (split; [intros H; try discriminate; nra|]); nra.
Qed.

Lemma rendered_scale_bounds_witness :
  0 <= scale scenarioParticle
  /\ 0.8 * scale scenarioParticle
     <= scalar (snd (updateParticle TEXT_SHAPE None 0.016 1 scenarioParticle))
     <= 1.44 * scale scenarioParticle.
Proof.
  assert (H : 0 <= scale scenarioParticle) by (cbn; lra).
  split; [exact H|].
  exact (proj2 (proj2
           (rendered_scale_bounds TEXT_SHAPE None 0.016 1 scenarioParticle H))).
Defined.

(** X8. The hover offset moves the rendered position vertically only,
    by at most 0.5 in the scattered state and at most 0.1 in the tree and
    text states; the rendered rotation grows linearly with the clock. *)
Theorem hover_is_bounded :
  forall (appState : AppState) (hit : option Vector3) (delta time : R)
         (particle : ParticleData),
    let out := snd (updateParticle appState hit delta time particle) in
    let pos := repulsed appState hit
                 (currentPosition
                    (fst (updateParticle appState hit delta time particle))) in
    let amplitude := match appState with SCATTERED => 0.5 | _ => 0.1 end in
    x (position out) = x pos
    /\ z (position out) = z pos
    /\ - amplitude <= y (position out) - y pos <= amplitude
    /\ rotationX out = time * x (rotationSpeed particle)
    /\ rotationY out = time * y (rotationSpeed particle).
Proof.
  intros appState hit delta time particle out pos amplitude.
  unfold out. rewrite updateParticle_position. cbv zeta. fold pos. cbn [x y z].
  split; [reflexivity|]. split; [reflexivity|].
  split; [|split; reflexivity].
  unfold hoverY, amplitude. cbv zeta.
  generalize (y pos); intros y0.
  destruct appState; cbn [isScattered AppState_eqb];
    match goal with |- context [sin ?a] =>
      pose proof (SIN_bound a) as [Hlo Hhi]; set (w := sin a) in *
    end; lra.
Qed.

(** ** X9: where repulsion leaves a particle *)

Lemma distanceTo_self (a : Vector3) : distanceTo a a = 0.
Proof.
  unfold distanceTo, distanceToSquared. cbv zeta.
  replace ((x a - x a) * (x a - x a) + (y a - y a) * (y a - y a)
           + (z a - z a) * (z a - z a)) with 0 by ring.
  apply sqrt_0.
Qed.

Lemma stretch_norm (dx dy dz k : R) :
  0 <= k ->
  sqrt ((dx * k) * (dx * k) + (dy * k) * (dy * k) + (dz * k) * (dz * k))
  = k * sqrt (dx * dx + dy * dy + dz * dz).
Proof.
  intros Hk.
  replace ((dx * k) * (dx * k) + (dy * k) * (dy * k) + (dz * k) * (dz * k))
    with ((k * k) * (dx * dx + dy * dy + dz * dz)) by ring.
  rewrite sqrt_mult.
  - now rewrite sqrt_square.
  - nra.
  - pose proof (Rle_0_sqr dx); pose proof (Rle_0_sqr dy); pose proof (Rle_0_sqr dz).
    unfold Rsqr in *; lra.
Qed.

Lemma repel_distance (pos mouse : Vector3) :
  let d := distanceTo pos mouse in
  0.01 < d < 8.0 ->
  distanceTo (repel pos mouse) mouse = d + 5.0 * (8.0 - d) / 8.0.
Proof.
  intros d H. rewrite repel_inside by exact H. fold d.
  set (P := 5.0 * (8.0 - d) / 8.0).
  assert (HP : 0 <= P) by (unfold P; lra).
  unfold distanceTo at 1. unfold distanceToSquared. cbn [x y z]. cbv zeta.
  replace (x pos + (x pos - x mouse) / d * P - x mouse)
    with ((x pos - x mouse) * (1 + P / d)) by (field; lra).
  replace (y pos + (y pos - y mouse) / d * P - y mouse)
    with ((y pos - y mouse) * (1 + P / d)) by (field; lra).
  replace (z pos + (z pos - z mouse) / d * P - z mouse)
    with ((z pos - z mouse) * (1 + P / d)) by (field; lra).
  rewrite stretch_norm.
  - change (sqrt ((x pos - x mouse) * (x pos - x mouse)
                  + (y pos - y mouse) * (y pos - y mouse)
                  + (z pos - z mouse) * (z pos - z mouse))) with d.
    field. lra.
  - assert (0 < / d) by (apply Rinv_0_lt_compat; lra).
    assert (0 <= P / d) by (unfold Rdiv; nra). lra.
Qed.

(** X9. Repulsion never brings the working position closer to the
    pointer and never takes it out of the repulsion radius: a position
    at distance [d] from the pointer with [0.01 < d < 8.0] ends at
    distance [5 + 3 d / 8], between 5 and 8, and every other position is
    left alone. The working position is displaced by at most 5. *)
Theorem repulsion_stays_in_radius :
  forall (pos mouse : Vector3),
    let d := distanceTo pos mouse in
    let d' := distanceTo (repel pos mouse) mouse in
    d <= d'
    /\ (d < 8.0 -> d' < 8.0)
    /\ (0.01 < d < 8.0 -> d' = 5 + 3 * d / 8 /\ 5 < d')
    /\ (d <= 0.01 \/ 8.0 <= d -> repel pos mouse = pos)
    /\ distanceTo (repel pos mouse) pos <= 5.
Proof.
  intros pos mouse d d'.
  destruct (Rlt_dec 0.01 d) as [Hlo|Hlo];
    [destruct (Rlt_dec d 8.0) as [Hhi|Hhi]|].
  - assert (E : d' = d + 5.0 * (8.0 - d) / 8.0)
      by (apply repel_distance; fold d; lra).
    assert (M : distanceTo (repel pos mouse) pos = 5.0 * (8.0 - d) / 8.0)
      by (apply repel_magnitude; fold d; lra).
    rewrite M, E. repeat split; intros; lra.
  - assert (E : repel pos mouse = pos) by (apply repel_outside; fold d; lra).
    unfold d'. rewrite E, distanceTo_self. fold d. repeat split; intros; try lra.
  - assert (E : repel pos mouse = pos) by (apply repel_outside; fold d; lra).
    unfold d'. rewrite E, distanceTo_self. fold d. repeat split; intros; try lra.
Qed.

(** ** X10: fixed points and frame rate *)

(** X10. A particle that is on its target, or a frame of zero duration,
    leaves the stored particle as it is. Two successive frames of
    durations [d1] and [d2] in one state interpolate by
    [a1 + a2 - a1 * a2], where [a1] and [a2] are their factors
    [d * lerpSpeed]: the result of a time span depends on how it is cut
    into frames. *)
Theorem update_fixed_point_and_composition :
  forall (appState : AppState) (hit1 hit2 : option Vector3) (d1 d2 t1 t2 : R)
         (particle : ParticleData),
    (currentPosition particle = target appState particle ->
     fst (updateParticle appState hit1 d1 t1 particle) = particle)
    /\ fst (updateParticle appState hit1 0 t1 particle) = particle
    /\ currentPosition
         (fst (updateParticle appState hit2 d2 t2
                 (fst (updateParticle appState hit1 d1 t1 particle))))
       = lerp (currentPosition particle) (target appState particle)
              (d1 * lerpSpeed appState + d2 * lerpSpeed appState
               - (d1 * lerpSpeed appState) * (d2 * lerpSpeed appState)).
Proof.
  intros appState hit1 hit2 d1 d2 t1 t2 particle.
  split; [|split].
  - intros H. unfold updateParticle. cbv zeta. cbn [fst].
    apply set_currentPosition_same. rewrite <- H.
    apply Vector3_eq; cbn; ring.
  - unfold updateParticle. cbv zeta. cbn [fst].
    apply set_currentPosition_same. apply Vector3_eq; cbn; ring.
  - rewrite updateParticle_currentPosition, updateParticle_target,
      updateParticle_currentPosition.
    apply Vector3_eq; cbn; ring.
Qed.

(** ** X11, X12: loading the text positions *)

Lemma set_textPosition_twice (p : ParticleData) (a b : Vector3) :
  set_textPosition (set_textPosition p a) b = set_textPosition p b.
Proof. reflexivity. Qed.

Lemma sampleTextPosition_shape draw sample p n :
  exists v,
    fst (sampleTextPosition draw sample p n) = set_textPosition p v
    /\ forall q,
         sampleTextPosition draw sample q n
         = (set_textPosition q v, snd (sampleTextPosition draw sample p n)).
Proof.
  cbv [sampleTextPosition bind random ret].
  destruct (sample n) as [s n1]. cbn [fst snd]. eexists. split; reflexivity.
Qed.

Lemma loadTextPositions_shape draw sample ps :
  forall n, exists vs,
    List.length vs = List.length ps
    /\ forall qs, List.length qs = List.length ps ->
         loadTextPositions draw sample qs n
         = (map (fun qv => set_textPosition (fst qv) (snd qv)) (combine qs vs),
            snd (loadTextPositions draw sample ps n)).
Proof.
  induction ps as [|p rest IH]; intros n.
  - exists []. split; [reflexivity|]. intros [|q qs] Hq; [reflexivity|discriminate].
  - destruct (sampleTextPosition_shape draw sample p n) as (v & _ & Hv).
    set (n1 := snd (sampleTextPosition draw sample p n)) in *.
    destruct (IH n1) as (vs & Hlen & Hvs).
    exists (v :: vs). split; [cbn; now rewrite Hlen|].
    intros [|q qs] Hq; [discriminate|]. cbn in Hq. injection Hq as Hq.
    cbn [loadTextPositions]. unfold bind at 1. rewrite (Hv q).
    unfold bind at 1. rewrite (Hvs qs Hq). unfold ret. cbn [combine map fst snd].
    f_equal.
    unfold bind at 1. rewrite (Hv p).
    unfold bind at 1. rewrite (Hvs rest eq_refl). reflexivity.
Qed.

(** X11. Loading the text positions keeps the number and the order of
    the particles and changes their [textPosition] only. It overwrites:
    the particles after a second load are the ones a single load with the
    second load's samples gives, whatever the first load assigned. *)
Theorem text_load_overwrites :
  forall (draw : nat -> R) (sample : Rand Vector3) (ps : list ParticleData)
         (n n' : nat),
    let loaded := fst (loadTextPositions draw sample ps n) in
    List.length loaded = List.length ps
    /\ Forall2 (fun p p' => p' = set_textPosition p (textPosition p')) ps loaded
    /\ map currentPosition loaded = map currentPosition ps
    /\ fst (loadTextPositions draw sample loaded n')
       = fst (loadTextPositions draw sample ps n').
Proof.
  intros draw sample ps n n' loaded.
  destruct (loadTextPositions_shape draw sample ps n) as (vs & Hlen & Hvs).
  assert (E : loaded = map (fun qv => set_textPosition (fst qv) (snd qv))
                           (combine ps vs)).
  { unfold loaded. now rewrite (Hvs ps eq_refl). }
  assert (Hl : List.length loaded = List.length ps).
  { rewrite E, length_map, length_combine, Hlen. apply Nat.min_id. }
  split; [exact Hl|]. split; [|split].
  - rewrite E. clear - Hlen. revert vs Hlen.
    induction ps as [|p rest IH]; intros [|v vs] Hlen; try discriminate;
      cbn [combine map]; constructor.
    + reflexivity.
    + apply IH. now injection Hlen.
  - rewrite E. clear - Hlen. revert vs Hlen.
    induction ps as [|p rest IH]; intros [|v vs] Hlen; try discriminate;
      cbn [combine map]; [reflexivity|].
    f_equal. apply IH. now injection Hlen.
  - destruct (loadTextPositions_shape draw sample ps n') as (ws & Hlen' & Hws).
    rewrite (Hws loaded Hl), (Hws ps eq_refl). cbn [fst].
    rewrite E. clear - Hlen Hlen'. revert vs ws Hlen Hlen'.
    induction ps as [|p rest IH]; intros [|v vs] [|w ws] Hlen Hlen';
      try discriminate; cbn [combine map]; [reflexivity|].
    f_equal. apply IH; [now injection Hlen | now injection Hlen'].
Qed.

(** X12. As long as [Math.random] returns values in [[0, 1)], every
    text position assigned by the load is within 0.1 on each axis of a
    point that the surface sampler returned. *)
Theorem text_positions_near_samples :
  forall (draw : nat -> R) (sample : Rand Vector3) (ps : list ParticleData) (n : nat),
    (forall j, 0 <= draw j < 1) ->
    Forall (fun p' => exists m,
              let s := fst (sample m) in
              Rabs (x (textPosition p') - x s) <= 0.1
              /\ Rabs (y (textPosition p') - y s) <= 0.1
              /\ Rabs (z (textPosition p') - z s) <= 0.1)
           (fst (loadTextPositions draw sample ps n)).
Proof.
  intros draw sample ps n Hdraw. revert n.
  induction ps as [|p rest IH]; intros n; cbn [loadTextPositions].
  - constructor.
  - unfold bind at 1.
    assert (Hp : exists m,
               let s := fst (sample m) in
               let p' := fst (sampleTextPosition draw sample p n) in
               Rabs (x (textPosition p') - x s) <= 0.1
               /\ Rabs (y (textPosition p') - y s) <= 0.1
               /\ Rabs (z (textPosition p') - z s) <= 0.1).
    { exists n. cbv [sampleTextPosition bind random ret].
      destruct (sample n) as [s n1]. cbn [fst snd textPosition set_textPosition x y z].
      pose proof (Hdraw n1). pose proof (Hdraw (S n1)). pose proof (Hdraw (S (S n1))).
      repeat split; apply Rabs_le; lra. }
    destruct (sampleTextPosition draw sample p n) as [p' n1]. cbn [fst] in Hp.
    unfold bind at 1. specialize (IH n1).
    destruct (loadTextPositions draw sample rest n1) as [rest' n2].
    unfold ret. cbn [fst] in *. constructor; assumption.
Qed.

Lemma text_positions_near_samples_witness :
  Forall (fun p' => exists m,
            let s := fst (ret origin m) in
            Rabs (x (textPosition p') - x s) <= 0.1
            /\ Rabs (y (textPosition p') - y s) <= 0.1
            /\ Rabs (z (textPosition p') - z s) <= 0.1)
         (fst (loadTextPositions exampleDraw (ret origin) [scenarioParticle] 0%nat)).
Proof.
  exact (text_positions_near_samples exampleDraw (ret origin) [scenarioParticle]
           0%nat exampleDraw_range).
Defined.

(** ** X13, X14: how the text and tree states are entered *)

Lemma classification_defined (f : Frame) (c c' : Controller) :
  onResult f c = Scheduled c' -> exists s, classification f = Some s.
Proof.
  destruct f as [[|hand rest] t]; unfold onResult, classification; cbn [landmarks].
  - eauto.
  - destruct (avgDist hand); cbn; [eauto | discriminate].
Qed.

(** X13. The text state is entered only through the dwell: a frame
    takes the state to [TEXT_SHAPE] from another state only if it is an
    open-hand frame that finds the dwell timer set and more than 5000 ms
    old. *)
Theorem text_entered_only_by_dwell :
  forall (f : Frame) (c c' : Controller),
    appState c <> TEXT_SHAPE ->
    onResult f c = Scheduled c' ->
    appState c' = TEXT_SHAPE ->
    classification f = Some OPEN
    /\ openHandStartTime c <> 0%Z
    /\ (now f - openHandStartTime c > 5000)%Z
    /\ openHandStartTime c' = openHandStartTime c.
Proof.
  intros f c c' Hs Hr Ht.
  destruct (classification_defined f c c' Hr) as [[| |] Hc].
  - rewrite (onResult_open f c Hc) in Hr. injection Hr as <-.
    split; [exact Hc|].
    destruct (Z.eq_dec (openHandStartTime c) 0) as [e|ne].
    + rewrite (openHand_fresh (now f) c e) in Ht. discriminate.
    + destruct (openHand_dwelling (now f) c ne) as (E1 & _ & E3).
      split; [exact ne|]. split; [|exact E1].
      destruct (Z_gt_le_dec (now f - openHandStartTime c) 5000) as [g|l];
        [exact g|].
      rewrite (E3 l) in Ht. destruct (appState c); try discriminate.
      now contradiction Hs.
  - rewrite (onResult_closed f c Hc) in Hr. injection Hr as <-. discriminate.
  - destruct (onResult_unknown f c Hc) as [[_ E]|[_ E]];
      rewrite E in Hr; injection Hr as <-; now contradiction Hs.
Qed.

Lemma text_entered_only_by_dwell_witness :
  classification (frameOfMetric 0.40 7000) = Some OPEN
  /\ (7000 - 1000 > 5000)%Z.
Proof.
  assert (Hr : onResult (frameOfMetric 0.40 7000) (mkController 1000 (-1) SCATTERED)
               = Scheduled (mkController 1000 (-1) TEXT_SHAPE)).
  { rewrite (onResult_open _ _ (open_frame 7000)). reflexivity. }
  destruct (text_entered_only_by_dwell (frameOfMetric 0.40 7000)
              (mkController 1000 (-1) SCATTERED) (mkController 1000 (-1) TEXT_SHAPE)
              ltac:(discriminate) Hr eq_refl) as (H1 & _ & H3 & _).
  split; [exact H1 | exact H3].
Defined.

Lemma onResult_tree_unset (f : Frame) (c c' : Controller) :
  (appState c = TREE_SHAPE -> openHandStartTime c = 0%Z) ->
  onResult f c = Scheduled c' ->
  appState c' = TREE_SHAPE -> openHandStartTime c' = 0%Z.
Proof.
  intros HI Hr Ht.
  destruct (classification_defined f c c' Hr) as [[| |] Hc].
  - rewrite (onResult_open f c Hc) in Hr. injection Hr as <-.
    destruct (Z.eq_dec (openHandStartTime c) 0) as [e|ne].
    + rewrite (openHand_fresh (now f) c e) in Ht. discriminate.
    + exfalso. destruct (openHand_dwelling (now f) c ne) as (_ & E2 & E3).
      destruct (Z_gt_le_dec (now f - openHandStartTime c) 5000) as [g|l].
      * rewrite (E2 g) in Ht. discriminate.
      * rewrite (E3 l) in Ht. destruct (appState c); discriminate.
  - rewrite (onResult_closed f c Hc) in Hr. injection Hr as <-. reflexivity.
  - destruct (onResult_unknown f c Hc) as [[_ E]|[_ E]];
      rewrite E in Hr; injection Hr as <-; [reflexivity | now apply HI].
Qed.

Lemma run_tree_unset (fs : list Frame) (c c' : Controller) :
  (appState c = TREE_SHAPE -> openHandStartTime c = 0%Z) ->
  run fs c = Scheduled c' ->
  appState c' = TREE_SHAPE -> openHandStartTime c' = 0%Z.
Proof.
  revert c. induction fs as [|f fs IH]; intros c HI Hr; cbn [run] in Hr.
  - injection Hr as <-. exact HI.
  - destruct (onResult f c) as [c1|c1] eqn:E; [|discriminate].
    apply (IH c1); [|exact Hr]. now apply (onResult_tree_unset f c c1).
Qed.

(** X14. In every controller the loop can reach, the tree state goes
    with an unset dwell timer. So the frame after the tree state never
    gives the text state: from [TREE_SHAPE] a frame leaves the state as
    it is or, when it is an open-hand frame, makes it [SCATTERED]. *)
Theorem tree_state_has_timer_unset :
  forall (c : Controller),
    Reachable c ->
    (appState c = TREE_SHAPE -> openHandStartTime c = 0%Z)
    /\ (forall f c',
          appState c = TREE_SHAPE ->
          onResult f c = Scheduled c' ->
          (classification f = Some OPEN /\ appState c' = SCATTERED
           /\ openHandStartTime c' = now f)
          \/ (classification f <> Some OPEN /\ appState c' = TREE_SHAPE
              /\ openHandStartTime c' = 0%Z)).
Proof.
  intros c [fs Hfs].
  assert (HI : appState c = TREE_SHAPE -> openHandStartTime c = 0%Z).
  { apply (run_tree_unset fs initial c); [discriminate | exact Hfs]. }
  split; [exact HI|].
  intros f c' Ht Hr. specialize (HI Ht).
  destruct (classification_defined f c c' Hr) as [[| |] Hc]; rewrite Hc.
  - left. rewrite (onResult_open f c Hc) in Hr. injection Hr as <-.
    rewrite (openHand_fresh (now f) c HI). repeat split.
  - right. rewrite (onResult_closed f c Hc) in Hr. injection Hr as <-.
    repeat split. discriminate.
  - right. destruct (onResult_unknown f c Hc) as [[_ E]|[_ E]];
      rewrite E in Hr; injection Hr as <-;
      (split; [discriminate|]); split; try assumption; reflexivity.
Qed.

Lemma tree_state_has_timer_unset_witness :
  Reachable (mkController 0 (-1) TREE_SHAPE)
  /\ (appState (mkController 0 (-1) TREE_SHAPE) = TREE_SHAPE ->
      openHandStartTime (mkController 0 (-1) TREE_SHAPE) = 0%Z).
Proof.
  assert (H : Reachable (mkController 0 (-1) TREE_SHAPE)).
  { exists [frameOfMetric 0.20 1000]. cbn [run].
    rewrite (onResult_closed _ _ (closed_frame 1000)). reflexivity. }
  split; [exact H|].
  exact (proj1 (tree_state_has_timer_unset (mkController 0 (-1) TREE_SHAPE) H)).
Defined.

(** ** X15: what interrupts the dwell *)

Lemma run_dwell_held (fs : list Frame) (c : Controller) :
  openHandStartTime c <> 0%Z ->
  appState c = SCATTERED ->
  Forall (fun f => handStaysOpenish f
                   /\ (classification f = Some OPEN ->
                       (now f - openHandStartTime c <= 5000)%Z)) fs ->
  exists c', run fs c = Scheduled c'
             /\ appState c' = SCATTERED
             /\ openHandStartTime c' = openHandStartTime c.
Proof.
  revert c. induction fs as [|f fs IH]; intros c Ht Hs HF.
  - exists c. repeat split; auto.
  - inversion HF as [|? ? [[Hhand [Hc|Hc]] Hn] HF']; subst; cbn [run].
    + rewrite (onResult_open f c Hc).
      destruct (openHand_dwelling (now f) c Ht) as (E1 & _ & E3).
      specialize (E3 (Hn Hc)). rewrite Hs in E3.
      destruct (IH (openHand (now f) c)) as (c' & R & S' & T');
        [now rewrite E1 | exact E3 | now rewrite E1 |].
      exists c'. rewrite E1 in T'. auto.
    + destruct (onResult_unknown f c Hc) as [[Hno _]|[_ Hr]]; [contradiction|].
      rewrite Hr. now apply IH.
Qed.

Lemma run_app (xs ys : list Frame) (c c' : Controller) :
  run xs c = Scheduled c' -> run (xs ++ ys) c = run ys c'.
Proof.
  revert c. induction xs as [|a xs IH]; intros c H; cbn [run app] in *.
  - now injection H as ->.
  - destruct (onResult a c); [now apply IH | discriminate].
Qed.

(** X15. The dwell runs on through frames whose metric is in the dead
    band, and is restarted by a frame without a hand. Start with the
    timer unset and an open-hand frame at a non-zero time; let frames
    follow that all show a hand, none classified closed, the open-hand
    ones within 5000 ms of the first. Then an open-hand frame more than
    5000 ms after the first gives [TEXT_SHAPE]; but if a frame without a
    hand comes just before it, it gives [SCATTERED] and starts the timer
    anew. *)
Theorem dwell_survives_dead_band_not_absence :
  forall (c0 : Controller) (f0 : Frame) (mid : list Frame) (f1 : Frame) (t : Z),
    openHandStartTime c0 = 0%Z ->
    now f0 <> 0%Z ->
    classification f0 = Some OPEN ->
    Forall (fun f => handStaysOpenish f
                     /\ (classification f = Some OPEN ->
                         (now f - now f0 <= 5000)%Z)) mid ->
    classification f1 = Some OPEN ->
    (now f1 - now f0 > 5000)%Z ->
    (exists c, run (f0 :: mid ++ [f1]) c0 = Scheduled c
               /\ appState c = TEXT_SHAPE /\ openHandStartTime c = now f0)
    /\ (exists c, run (f0 :: mid ++ [noHandFrame t; f1]) c0 = Scheduled c
                  /\ appState c = SCATTERED /\ openHandStartTime c = now f1).
Proof.
  intros c0 f0 mid f1 t Hunset Ht0 Hc0 Hmid Hc1 Ht1.
  set (c1 := openHand (now f0) c0).
  assert (Hc1' : c1 = mkController (now f0) (lastVideoTime c0) SCATTERED)
    by now apply openHand_fresh.
  assert (Tc1 : openHandStartTime c1 = now f0) by now rewrite Hc1'.
  destruct (run_dwell_held mid c1) as (c2 & R2 & S2 & T2).
  { rewrite Tc1; exact Ht0. }
  { now rewrite Hc1'. }
  { now rewrite Tc1. }
  rewrite Tc1 in T2.
  assert (Hstart : forall fs, run (f0 :: mid ++ fs) c0 = run fs c2).
  { intros fs. cbn [run]. rewrite (onResult_open f0 c0 Hc0). fold c1.
    now apply run_app. }
  split.
  - rewrite Hstart. cbn [run]. rewrite (onResult_open f1 c2 Hc1).
    exists (openHand (now f1) c2).
    destruct (openHand_dwelling (now f1) c2) as (E1 & E2 & _);
      [rewrite T2; exact Ht0|].
    rewrite T2 in E1, E2. auto.
  - rewrite Hstart. cbn [run].
    change (onResult (noHandFrame t) c2) with (Scheduled (noHand c2)).
    cbv iota beta. rewrite (onResult_open f1 (noHand c2) Hc1).
    exists (openHand (now f1) (noHand c2)).
    rewrite (openHand_fresh (now f1) (noHand c2) eq_refl). repeat split.
Qed.

Lemma dwell_survives_dead_band_not_absence_witness :
  exists c,
    run (frameOfMetric 0.40 1000
         :: [frameOfMetric 0.30 3000] ++ [frameOfMetric 0.40 6001]) initial
    = Scheduled c
    /\ appState c = TEXT_SHAPE /\ openHandStartTime c = 1000%Z.
Proof.
  refine (proj1
    (dwell_survives_dead_band_not_absence initial (frameOfMetric 0.40 1000)
       [frameOfMetric 0.30 3000] (frameOfMetric 0.40 6001) 0
       eq_refl _ (open_frame 1000) _ (open_frame 6001) _)).
  - cbn; lia.
  - constructor; [|constructor]. split.
    + split; [discriminate | right; apply dead_band_frame].
    + intros H. rewrite dead_band_frame in H. discriminate.
  - cbn; lia.
Defined.

(** ** X16: one detection per video frame *)

Lemma openHand_lastVideoTime (t : Z) (c : Controller) :
  lastVideoTime (openHand t c) = lastVideoTime c.
Proof.
  unfold openHand. destruct (openHandStartTime c =? 0)%Z; [reflexivity|].
  destruct (t - openHandStartTime c >? 5000)%Z; reflexivity.
Qed.

Lemma onResult_lastVideoTime (f : Frame) (c : Controller) :
  lastVideoTime (controllerOf (onResult f c)) = lastVideoTime c.
Proof.
  unfold onResult. destruct (landmarks f) as [|hand rest]; [reflexivity|].
  destruct (avgDist hand) as [a|]; [|reflexivity].
  cbn [controllerOf]. destruct (signal a);
    [apply openHand_lastVideoTime | reflexivity | reflexivity].
Qed.

(** X16. Detection runs at most once per video frame: after a call of
    [predictWebcam], whatever it did, another call with the same video
    (the same [currentTime]) leaves the controller as it is, with any
    detection result. When detection did run, the controller remembers
    the video time, also when the call ended with an exception. *)
Theorem one_detection_per_video_frame :
  forall (video : option Video) (landmarker : bool) (f f' : Frame) (c : Controller),
    let after := controllerOf (predictWebcam video landmarker f c) in
    predictWebcam video landmarker f' after = Scheduled after
    /\ (forall v, video = Some v -> landmarker = true ->
          (2 <= readyState v)%nat -> lastVideoTime after = currentTime v).
Proof.
  intros video landmarker f f' c after. unfold after, predictWebcam.
  destruct video as [v|]; [|split; [reflexivity | discriminate]].
  destruct landmarker; cbn [andb];
    [|split; [reflexivity | intros; discriminate]].
  destruct (Nat.leb_spec 2 (readyState v)) as [Hr|Hr].
  - destruct (Req_dec_T (currentTime v) (lastVideoTime c)) as [e|ne].
    + cbn [controllerOf]. split.
      * destruct (Req_dec_T (currentTime v) (lastVideoTime c));
          [reflexivity | contradiction].
      * intros v' Hv _ _. injection Hv as <-. now symmetry.
    + pose proof (onResult_lastVideoTime f (set_lastVideoTime (currentTime v) c))
        as Hl.
      cbn [lastVideoTime set_lastVideoTime] in Hl. split.
      * destruct (Req_dec_T (currentTime v)
                    (lastVideoTime (controllerOf
                       (onResult f (set_lastVideoTime (currentTime v) c)))))
          as [_|n]; [reflexivity|]. now rewrite Hl in n.
      * intros v' Hv _ _. injection Hv as <-. exact Hl.
  - split; [reflexivity|]. intros v' Hv _ Hready. injection Hv as <-. lia.
Qed.

(** ** X17, X18: the openness metric under moves and scalings *)

Lemma dist_nonneg (tip wrist : option Landmark) (d : R) :
  dist tip wrist = Some d -> 0 <= d.
Proof.
  destruct tip, wrist; cbn; intros H; try discriminate.
  injection H as <-. apply sqrt_pos.
Qed.

Lemma sumDist_nonneg (tips : list (option Landmark)) (wrist : option Landmark) :
  forall acc total, 0 <= acc -> sumDist tips wrist acc = Some total -> 0 <= total.
Proof.
  induction tips as [|tip rest IH]; intros acc total Hacc H; cbn [sumDist] in H.
  - injection H as <-. exact Hacc.
  - destruct (dist tip wrist) as [d|] eqn:E; [|discriminate].
    apply (IH (acc + d)); [|exact H]. apply dist_nonneg in E. lra.
Qed.

Lemma avgDist_map (g : Landmark -> Landmark) (hand : list Landmark) :
  avgDist (map g hand)
  = match sumDist (map (option_map g) (map (at_index hand) [8; 12; 16; 20]%nat))
                  (option_map g (at_index hand 0)) 0 with
    | Some total => Some (total / INR 4)
    | None => None
    end.
Proof.
  unfold avgDist, at_index. cbv zeta. cbn [map List.length].
  rewrite !nth_error_map. reflexivity.
Qed.

Lemma dist_translate (dx dy dz : R) (tip wrist : option Landmark) :
  dist (option_map (translateLandmark dx dy dz) tip)
       (option_map (translateLandmark dx dy dz) wrist)
  = dist tip wrist.
Proof.
  destruct tip as [t|], wrist as [w|]; cbn; try reflexivity.
  do 2 f_equal. ring.
Qed.

Lemma sumDist_translate (dx dy dz : R) (tips : list (option Landmark))
    (wrist : option Landmark) :
  forall acc,
    sumDist (map (option_map (translateLandmark dx dy dz)) tips)
            (option_map (translateLandmark dx dy dz) wrist) acc
    = sumDist tips wrist acc.
Proof.
  induction tips as [|tip rest IH]; intros acc; cbn [map sumDist]; [reflexivity|].
  rewrite dist_translate. destruct (dist tip wrist); [apply IH | reflexivity].
Qed.

(** X17. The openness metric is never negative, and it does not depend
    on where the hand is: moving all landmarks by one vector leaves the
    metric, and so what the handler does with the frame, as it was. *)
Theorem metric_translation_invariant :
  forall (dx dy dz : R) (hand : list Landmark) (rest : list (list Landmark))
         (t : Z) (c : Controller),
    avgDist (map (translateLandmark dx dy dz) hand) = avgDist hand
    /\ onResult (mkFrame (map (translateLandmark dx dy dz) hand :: rest) t) c
       = onResult (mkFrame (hand :: rest) t) c
    /\ (forall a, avgDist hand = Some a -> 0 <= a).
Proof.
  intros dx dy dz hand rest t c.
  assert (E : avgDist (map (translateLandmark dx dy dz) hand) = avgDist hand).
  { rewrite avgDist_map, sumDist_translate. reflexivity. }
  split; [exact E|]. split.
  - unfold onResult. cbn [landmarks now]. now rewrite E.
  - intros a Ha. unfold avgDist in Ha. cbv zeta in Ha.
    destruct (sumDist (map (at_index hand) [8; 12; 16; 20]%nat) (at_index hand 0) 0)
      as [total|] eqn:Es; [|discriminate].
    injection Ha as <-. apply sumDist_nonneg in Es; [|lra].
    cbn [map List.length]. change (INR 4) with (1 + 1 + 1 + 1).
    apply Rmult_le_pos; [exact Es|]. left. apply Rinv_0_lt_compat. lra.
Qed.

Lemma dist_scale (k : R) (tip wrist : option Landmark) :
  0 <= k ->
  dist (option_map (scaleLandmark k) tip) (option_map (scaleLandmark k) wrist)
  = option_map (Rmult k) (dist tip wrist).
Proof.
  intros Hk. destruct tip as [t|], wrist as [w|]; cbn; try reflexivity.
  f_equal.
  replace ((k * lx t - k * lx w) * ((k * lx t - k * lx w) * 1)
           + (k * ly t - k * ly w) * ((k * ly t - k * ly w) * 1)
           + (k * lz t - k * lz w) * ((k * lz t - k * lz w) * 1))
    with (((lx t - lx w) * k) * ((lx t - lx w) * k)
          + ((ly t - ly w) * k) * ((ly t - ly w) * k)
          + ((lz t - lz w) * k) * ((lz t - lz w) * k)) by ring.
  rewrite stretch_norm by exact Hk. do 2 f_equal. ring.
Qed.

Lemma sumDist_scale (k : R) (tips : list (option Landmark))
    (wrist : option Landmark) :
  0 <= k ->
  forall acc,
    sumDist (map (option_map (scaleLandmark k)) tips)
            (option_map (scaleLandmark k) wrist) (k * acc)
    = option_map (Rmult k) (sumDist tips wrist acc).
Proof.
  intros Hk. induction tips as [|tip rest IH]; intros acc; cbn [map sumDist];
    [reflexivity|].
  rewrite dist_scale by exact Hk.
  destruct (dist tip wrist) as [d|]; cbn [option_map]; [|reflexivity].
  rewrite <- Rmult_plus_distr_l. apply IH.
Qed.

(** X18. The openness metric grows with the apparent size of the hand:
    scaling all landmarks about the origin by a factor [k >= 0] multiplies
    the metric by [k]. A hand of metric 0.30, in the dead band, is
    classified open once it appears twice as large. *)
Theorem metric_scales_with_hand :
  forall (k : R) (hand : list Landmark),
    0 <= k ->
    avgDist (map (scaleLandmark k) hand) = option_map (Rmult k) (avgDist hand)
    /\ (forall a t, avgDist hand = Some a -> k * a > 0.35 ->
          classification (mkFrame [map (scaleLandmark k) hand] t) = Some OPEN).
Proof.
  intros k hand Hk.
  assert (E : avgDist (map (scaleLandmark k) hand)
              = option_map (Rmult k) (avgDist hand)).
  { rewrite avgDist_map.
    replace 0 with (k * 0) at 1 by ring.
    rewrite sumDist_scale by exact Hk.
    unfold avgDist. cbv zeta. cbn [map List.length].
    destruct (sumDist _ _ 0) as [total|]; cbn [option_map]; [|reflexivity].
    f_equal. unfold Rdiv. ring. }
  split; [exact E|].
  intros a t Ha Hopen. unfold classification. cbn [landmarks].
  rewrite E, Ha. cbn [option_map]. f_equal. now apply signal_open.
Qed.

Lemma metric_scales_with_hand_witness :
  classification (frameOfMetric 0.30 1000) = Some UNKNOWN
  /\ classification (mkFrame [map (scaleLandmark 2) (handOfMetric 0.30)] 1000)
     = Some OPEN.
Proof.
  split; [apply dead_band_frame|].
  assert (Hk : 0 <= 2) by lra.
  refine (proj2 (metric_scales_with_hand 2 (handOfMetric 0.30) Hk) 0.30 1000%Z _ _).
  - apply avgDist_handOfMetric. lra.
  - lra.
Defined.

(** ** X19: the overlay *)

(** X19. In every application state the overlay shows exactly one
    status message and highlights exactly one of the two gesture columns;
    the open-hand column is the highlighted one exactly in the states in
    which the particle engine lets the pointer repel particles, and it
    pulses, with the caption changed, exactly in the text state. *)
Theorem overlay_shows_one_state :
  forall (appState : AppState),
    List.length (UIOverlay.statusLine appState) = 1%nat
    /\ UIOverlay.openHandHighlighted appState
       = negb (UIOverlay.closedFistHighlighted appState)
    /\ UIOverlay.openHandHighlighted appState = isInteractionActive appState
    /\ (UIOverlay.openHandPulses appState = true <-> appState = TEXT_SHAPE)
    /\ (UIOverlay.openHandCaption appState = UIOverlay.openHandCaption TEXT_SHAPE
        <-> appState = TEXT_SHAPE)
    /\ (forall other,
          UIOverlay.statusLine appState = UIOverlay.statusLine other ->
          appState = other).
Proof.
  intros appState.
  destruct appState; cbn;
    (split; [reflexivity|]); (split; [reflexivity|]); (split; [reflexivity|]);
    (split; [split; intros H; (discriminate || reflexivity)|]);
    (split; [split; intros H; (discriminate || reflexivity)|]);
    intros other; destruct other; cbn; intros H; (discriminate || reflexivity).
Qed.
